(** * ZMK behaviours and the Studio keymap subsystem

    A shallow embedding of [app/src/behavior.c] (behaviour registry, local
    ids, parameter validation) and of [app/src/studio/keymap_subsystem.c]
    (the keymap RPC handlers and the layout migration), together with the
    properties the design document states about them.

    C integers are [Z]; the places where the source narrows a value
    ([uint8_t], [uint16_t]) are written out as a reduction modulo the width.
    C strings are a pointer together with the characters it points at, since
    the registry lookup compares pointers before it compares contents. *)

From stdpp Require Import base list strings pretty.
From Stdlib Require Import ZArith Lia.

Local Open Scope Z_scope.

(** ** errno values (Zephyr's [errno.h]) *)

Definition EINVAL : Z := 22.
Definition ENODEV : Z := 19.
Definition ENOTSUP : Z := 134.

Definition UINT16_MAX : Z := 65535.
Definition UINT32_MAX : Z := 4294967295.

Definition to_uint8 (x : Z) : Z := x mod 256.
Definition to_uint16 (x : Z) : Z := x mod 65536.

(** ** Build configuration

    Everything the two files take from Kconfig and from headers that are
    not part of them.  [ZMK_KEYMAP_LEN] is the number of key positions of a
    layer and [ZMK_KEYMAP_LAYERS_LEN] the number of layers (this is how
    [keymap_subsystem.c] iterates with them). *)

Record config := Config {
  CONFIG_ZMK_BEHAVIOR_METADATA : bool;
  CONFIG_ZMK_HID_CONSUMER_REPORT_USAGES_BASIC : bool;
  ZMK_KEYMAP_LEN : Z;
  ZMK_KEYMAP_LAYERS_LEN : Z;
  ZMK_HID_KEYBOARD_NKRO_MAX_USAGE : Z;
  LEFT_CONTROL : Z;
  RIGHT_GUI : Z;
  ZMK_HID_USAGE_PAGE : Z → Z;
  ZMK_HID_USAGE_ID : Z → Z
}.

Definition HID_USAGE_KEY : Z := 0x07.
Definition HID_USAGE_CONSUMER : Z := 0x0C.

(** ** Data of [behavior.c] *)

Record cstr := CStr { c_ptr : Z; c_chars : string }.

Inductive behavior_parameter_value_metadata :=
| BEHAVIOR_PARAMETER_VALUE_TYPE_NIL
| BEHAVIOR_PARAMETER_VALUE_TYPE_VALUE (value : Z)
| BEHAVIOR_PARAMETER_VALUE_TYPE_RANGE (min max : Z)
| BEHAVIOR_PARAMETER_VALUE_TYPE_HID_USAGE
| BEHAVIOR_PARAMETER_VALUE_TYPE_LAYER_INDEX.

Record behavior_parameter_metadata_set := MetadataSet {
  param1_values : list behavior_parameter_value_metadata;
  param2_values : list behavior_parameter_value_metadata
}.

(** [struct behavior_parameter_metadata]: [sets_len] is the length of the
    list. *)
Definition behavior_parameter_metadata := list behavior_parameter_metadata_set.

(** A behaviour device: its name, whether [z_device_is_ready] holds for it,
    and what [behavior_get_parameter_metadata] answers for it (the return
    code and the metadata written through the out-pointer). *)
Record device := Device {
  name : cstr;
  is_ready : bool;
  get_parameter_metadata : Z * behavior_parameter_metadata
}.

Record zmk_behavior_local_id_map := LocalIdMap {
  lid_device : device;
  local_id : Z
}.

(** Local id 0 means that no id has been assigned yet. *)
Definition unassigned (item : zmk_behavior_local_id_map) : Prop := local_id item = 0.

Record zmk_behavior_binding := Binding {
  behavior_dev : option cstr;
  param1 : Z;
  param2 : Z
}.

(** ** Library calls of the settings handler

    [behavior_handle_set] calls two functions that belong to Zephyr and to
    the C library.  [settings_name_steq name key] answers its return value
    and what it leaves in [next] ([None] for [NULL]); [strtoul] answers the
    number it read and the text [endptr] is left pointing at. *)

Class SettingsLib := {
  settings_name_steq : string → string → Z * option string;
  strtoul : string → Z → Z * string
}.

(** ** [behavior.c] *)

Module Behavior.

Definition ptr_eqb (a b : cstr) : bool := c_ptr a =? c_ptr b.
Definition strcmp_eq0 (a b : cstr) : bool := bool_decide (c_chars a = c_chars b).

(** [z_impl_behavior_get_binding]: one pass by pointer, one by contents. *)
Definition z_impl_behavior_get_binding
    (refs : list device) (nm : option cstr) : option device :=
  match nm with
  | None => None
  | Some n =>
    if bool_decide (c_chars n = "") then None
    else
      match find (λ d, is_ready d && ptr_eqb (name d) n) refs with
      | Some d => Some d
      | None => find (λ d, is_ready d && strcmp_eq0 (name d) n) refs
      end
  end.

Definition zmk_behavior_get_binding := z_impl_behavior_get_binding.

Definition validate_hid_usage (cfg : config) (usage_page usage_id : Z) : Z :=
  if usage_page =? HID_USAGE_KEY then
    if (usage_id =? 0)
       || ((ZMK_HID_KEYBOARD_NKRO_MAX_USAGE cfg <? usage_id)
           && (usage_id <? LEFT_CONTROL cfg) && (RIGHT_GUI cfg <? usage_id))
    then - EINVAL else 0
  else if usage_page =? HID_USAGE_CONSUMER then
    if (if CONFIG_ZMK_HID_CONSUMER_REPORT_USAGES_BASIC cfg then 0xFF else 0xFFF)
         <? usage_id
    then - EINVAL else 0
  else - EINVAL.

(** The body of the [switch] of [zmk_behavior_validate_param_values]:
    whether one value description sets [found_match].  The two arguments of
    [validate_hid_usage] are [uint16_t]. *)
Definition value_meta_matches
    (cfg : config) (value_meta : behavior_parameter_value_metadata) (param : Z) : bool :=
  match value_meta with
  | BEHAVIOR_PARAMETER_VALUE_TYPE_NIL => param =? 0
  | BEHAVIOR_PARAMETER_VALUE_TYPE_HID_USAGE =>
      0 <=? validate_hid_usage cfg (to_uint16 (ZMK_HID_USAGE_PAGE cfg param))
                                   (to_uint16 (ZMK_HID_USAGE_ID cfg param))
  | BEHAVIOR_PARAMETER_VALUE_TYPE_LAYER_INDEX =>
      (0 <=? param) && (param <? ZMK_KEYMAP_LEN cfg)
  | BEHAVIOR_PARAMETER_VALUE_TYPE_VALUE v => param =? v
  | BEHAVIOR_PARAMETER_VALUE_TYPE_RANGE lo hi => (lo <=? param) && (param <=? hi)
  end.

(** The [for] loop: stops at the first description that matches. *)
Fixpoint found_match
    (cfg : config) (values : list behavior_parameter_value_metadata) (param : Z) : bool :=
  match values with
  | [] => false
  | value_meta :: rest =>
      if value_meta_matches cfg value_meta param then true
      else found_match cfg rest param
  end.

Definition zmk_behavior_validate_param_values
    (cfg : config) (values : list behavior_parameter_value_metadata) (param : Z) : Z :=
  match values with
  | [] => - ENODEV
  | _ => if found_match cfg values param then 0 else - ENOTSUP
  end.

(** The test of one set in [zmk_behavior_validate_params_metadata]. *)
Definition set_accepts
    (cfg : config) (set : behavior_parameter_metadata_set) (p1 p2 : Z) : bool :=
  let param1_ret := zmk_behavior_validate_param_values cfg (param1_values set) p1 in
  let param2_ret := zmk_behavior_validate_param_values cfg (param2_values set) p2 in
  ((0 <=? param1_ret) || ((param1_ret =? - ENODEV) && (p1 =? 0)))
  && ((0 <=? param2_ret) || ((param2_ret =? - ENODEV) && (p2 =? 0))).

Fixpoint sets_loop
    (cfg : config) (sets : list behavior_parameter_metadata_set) (p1 p2 : Z) : Z :=
  match sets with
  | [] => - EINVAL
  | set :: rest => if set_accepts cfg set p1 p2 then 0 else sets_loop cfg rest p1 p2
  end.

(** [metadata] is a pointer that may be [NULL]. *)
Definition zmk_behavior_validate_params_metadata
    (cfg : config) (metadata : option behavior_parameter_metadata) (p1 p2 : Z) : Z :=
  match metadata with
  | None | Some [] => if (p1 =? 0) && (p2 =? 0) then 0 else - ENODEV
  | Some sets => sets_loop cfg sets p1 p2
  end.

Definition zmk_behavior_validate_binding
    (cfg : config) (refs : list device) (binding : zmk_behavior_binding) : Z :=
  if CONFIG_ZMK_BEHAVIOR_METADATA cfg then
    match zmk_behavior_get_binding refs (behavior_dev binding) with
    | None => - ENODEV
    | Some behavior =>
        let '(ret, metadata) := get_parameter_metadata behavior in
        if ret <? 0 then ret
        else zmk_behavior_validate_params_metadata cfg (Some metadata)
               (param1 binding) (param2 binding)
    end
  else 0.

(** [zmk_behavior_get_local_id] *)
Definition zmk_behavior_get_local_id
    (ids : list zmk_behavior_local_id_map) (nm : option cstr) : Z :=
  match nm with
  | None => UINT16_MAX
  | Some n =>
      match find (λ item, is_ready (lid_device item)
                          && strcmp_eq0 (name (lid_device item)) n) ids with
      | Some item => local_id item
      | None => UINT16_MAX
      end
  end.

Definition zmk_behavior_find_behavior_name_from_local_id
    (ids : list zmk_behavior_local_id_map) (id : Z) : option cstr :=
  match find (λ item, is_ready (lid_device item) && (local_id item =? id)) ids with
  | Some item => Some (name (lid_device item))
  | None => None
  end.

(** The persistent-counter strategy.  The state the commit handler works on:
    the identity table, the counter [largest_local_id], and the pairs handed
    to [settings_save_one], oldest first. *)
Record local_id_state := LocalIdState {
  id_table : list zmk_behavior_local_id_map;
  largest_local_id : Z;
  saved_settings : list (string * string)
}.

Definition setting_name (id : Z) : string := "behavior/local_id/" +:+ pretty id.

(** The loop of [behavior_handle_commit] over the remaining items.  The
    counter is a [uint16_t], so [++largest_local_id] wraps. *)
Fixpoint commit_items
    (items : list zmk_behavior_local_id_map) (largest : Z)
    : list zmk_behavior_local_id_map * Z * list (string * string) :=
  match items with
  | [] => ([], largest, [])
  | item :: rest =>
      if negb (local_id item =? 0) then
        let '(rest', largest', saved) := commit_items rest largest in
        (item :: rest', largest', saved)
      else
        let id := to_uint16 (largest + 1) in
        let '(rest', largest', saved) := commit_items rest id in
        (LocalIdMap (lid_device item) id :: rest', largest',
         (setting_name id, c_chars (name (lid_device item))) :: saved)
  end.

Definition behavior_handle_commit (st : local_id_state) : Z * local_id_state :=
  let '(items, largest, saved) := commit_items (id_table st) (largest_local_id st) in
  (0, LocalIdState items largest (saved_settings st ++ saved)).

(** [zmk_behavior_get_empty_param_metadata]: the return code and the
    metadata left behind the out-pointer ([sets_len = 0]). *)
Definition zmk_behavior_get_empty_param_metadata : Z * behavior_parameter_metadata :=
  (0, []).

(** The last loop of [behavior_handle_set]: the first item whose device name
    compares equal gets the id; [None] when the loop runs to its end. *)
Fixpoint assign_local_id
    (nm : string) (id : Z) (items : list zmk_behavior_local_id_map)
    : option (list zmk_behavior_local_id_map) :=
  match items with
  | [] => None
  | item :: rest =>
      if bool_decide (nm = c_chars (name (lid_device item)))
      then Some (LocalIdMap (lid_device item) id :: rest)
      else match assign_local_id nm id rest with
           | Some rest' => Some (item :: rest')
           | None => None
           end
  end.

(** [behavior_handle_set].  [key] is the setting name the handler is given,
    [len] the size of the stored value, and [read_cb len] what reading the
    value answers: the return code and the characters the buffer then holds
    as a C string.  The id is read into a [uint8_t]. *)
Definition behavior_handle_set `{!SettingsLib}
    (key : string) (len : Z) (read_cb : Z → Z * string) (st : local_id_state)
    : Z * local_id_state :=
  let '(matched, next) := settings_name_steq key "local_id" in
  match (if matched =? 0 then None else next) with
  | Some next =>
      let '(parsed, endptr) := strtoul next 10 in
      let id := to_uint8 parsed in
      if negb (bool_decide (endptr = "")) then (- EINVAL, st)
      else if 64 <=? len then (- EINVAL, st)
      else
        let '(err, buf) := read_cb len in
        if err <=? 0 then (err, st)
        else
          match assign_local_id buf id (id_table st) with
          | Some items =>
              (0, LocalIdState items (Z.max (largest_local_id st) id) (saved_settings st))
          | None => (- EINVAL, st)
          end
  | None => (0, st)
  end.

(** [check_behavior_names]: the names logged with [LOG_ERR], in the order
    the two loops reach them, and the return code. *)
Fixpoint duplicate_names_logged (refs : list device) : list string :=
  match refs with
  | [] => []
  | current :: others =>
      ((λ _, c_chars (name current))
         <$> filter (λ other, c_chars (name current) = c_chars (name other)) others)
      ++ duplicate_names_logged others
  end.

Definition check_behavior_names (refs : list device) : Z * list string :=
  (0, duplicate_names_logged refs).

End Behavior.

(** ** The keymap store

    Modelled from the spec: the KeymapStore collaborator ([getBindingAt],
    [setBindingAt] answering Ok or InvalidLocation), whose source file
    ([keymap.c]) is not among the two files embedded here.  The store is a
    fixed array of layers, each a fixed array of bindings; a read outside it
    answers [NULL] and a write outside it answers [-EINVAL] and changes
    nothing. *)

Abbreviation keymap := (list (list zmk_behavior_binding)).

Definition zmk_keymap_get_layer_binding_at_idx
    (km : keymap) (layer idx : Z) : option zmk_behavior_binding :=
  if (layer <? 0) || (idx <? 0) then None
  else
    match km !! Z.to_nat layer with
    | Some row => row !! Z.to_nat idx
    | None => None
    end.

Definition zmk_keymap_set_layer_binding_at_idx
    (km : keymap) (layer idx : Z) (binding : zmk_behavior_binding) : Z * keymap :=
  match zmk_keymap_get_layer_binding_at_idx km layer idx with
  | None => (- EINVAL, km)
  | Some _ => (0, alter (λ row, <[Z.to_nat idx := binding]> row) (Z.to_nat layer) km)
  end.

(** The store has the dimensions of the build. *)
Definition keymap_dims (cfg : config) (km : keymap) : Prop :=
  Z.of_nat (length km) = ZMK_KEYMAP_LAYERS_LEN cfg
  ∧ Forall (λ row : list zmk_behavior_binding,
              Z.of_nat (length row) = ZMK_KEYMAP_LEN cfg) km.

(** ** Messages of the keymap RPC subsystem *)

Inductive zmk_keymap_SetLayerBindingResponse :=
| SetLayerBinding_SUCCESS
| SetLayerBinding_INVALID_LOCATION
| SetLayerBinding_INVALID_BEHAVIOR
| SetLayerBinding_INVALID_PARAMETERS.

Inductive zmk_meta_ErrorConditions := GENERIC.

Inductive zmk_keymap_SetActivePhysicalLayoutErrorCode := SetActivePhysicalLayout_GENERIC.

(** [ok] carries the layers, which the encoder reads from the keymap store
    when the response is sent. *)
Inductive zmk_keymap_SetActivePhysicalLayoutResponse :=
| SetActivePhysicalLayout_ok
| SetActivePhysicalLayout_err (code : zmk_keymap_SetActivePhysicalLayoutErrorCode).

Inductive zmk_Response :=
| ZMK_RPC_SIMPLE_ERR (e : zmk_meta_ErrorConditions)
| Response_set_layer_binding (r : zmk_keymap_SetLayerBindingResponse)
| Response_check_unsaved_changes (b : bool)
| Response_save_changes (b : bool)
| Response_discard_changes (b : bool)
| Response_set_active_physical_layout (r : zmk_keymap_SetActivePhysicalLayoutResponse).

Inductive zmk_Notification :=
| unsaved_changes_status_changed (dirty : bool).

Record zmk_keymap_BehaviorBinding := BehaviorBinding {
  behavior_id : Z;
  bb_param1 : Z;
  bb_param2 : Z
}.

Record zmk_keymap_SetLayerBindingRequest := SetLayerBindingRequest {
  req_layer : Z;
  req_key_position : Z;
  req_binding : zmk_keymap_BehaviorBinding
}.

(** ** Collaborators of the keymap subsystem

    The physical-layout store and the persistence side of the keymap store
    are called, not defined, by [keymap_subsystem.c].  They are an interface
    over a state [E] of their own; each call answers a return code and the
    state it leaves. *)

Class Collaborators (E : Type) := {
  zmk_physical_layouts_get_selected : E → Z;
  zmk_physical_layouts_select : Z → E → Z * E;
  zmk_physical_layouts_get_position_map : Z → Z → E → Z * list Z;
  zmk_physical_layouts_check_unsaved_selection : E → Z;
  zmk_physical_layouts_save_selected : E → Z * E;
  zmk_physical_layouts_revert_selected : E → Z * E;
  zmk_keymap_check_unsaved_changes : keymap → E → Z;
  zmk_keymap_save_changes : keymap → E → Z * E;
  zmk_keymap_discard_changes : keymap → E → Z * keymap * E
}.

(** Everything a handler can read or change. *)
Record world (E : Type) := World {
  behavior_refs : list device;
  local_ids : list zmk_behavior_local_id_map;
  zmk_keymap : keymap;
  ext : E;
  notifications : list zmk_Notification
}.
Arguments World {E}.
Arguments behavior_refs {E}.
Arguments local_ids {E}.
Arguments zmk_keymap {E}.
Arguments ext {E}.
Arguments notifications {E}.

(** Modelled from the spec: the ChangeFlag.  The subsystem keeps no flag
    variable; what it tells the client about unsaved changes is the value of
    the latest [unsaved_changes_status_changed] notification, so the flag is
    read off the notifications raised so far, starting from [initial]. *)
Definition change_flag (initial : bool) (ns : list zmk_Notification) : bool :=
  match last ns with
  | Some (unsaved_changes_status_changed b) => b
  | None => initial
  end.

(** ** A state monad over the world *)

Definition M (E A : Type) : Type := world E → A * world E.

Definition ret {E A} (a : A) : M E A := λ w, (a, w).
Definition bind {E A B} (m : M E A) (k : A → M E B) : M E B :=
  λ w, let '(a, w') := m w in k a w'.

Declare Scope rpc_scope.
Delimit Scope rpc_scope with rpc.
Notation "x <- m ;; k" := (bind m (λ x, k))
  (at level 100, m at next level, right associativity) : rpc_scope.
Notation "m ;; k" := (bind m (λ _, k))
  (at level 100, right associativity) : rpc_scope.

Definition gets {E A} (f : world E → A) : M E A := λ w, (f w, w).
Definition set_keymap {E} (km : keymap) : M E unit :=
  λ w, (tt, World (behavior_refs w) (local_ids w) km (ext w) (notifications w)).
Definition with_ext {E} (w : world E) (e : E) : world E :=
  World (behavior_refs w) (local_ids w) (zmk_keymap w) e (notifications w).

(** Lifting a collaborator call that answers a code and a new state. *)
Definition call_ext {E} (f : E → Z * E) : M E Z :=
  λ w, let '(r, e) := f (ext w) in
       (r, with_ext w e).

Definition raise_zmk_studio_rpc_notification {E} (n : zmk_Notification) : M E unit :=
  λ w, (tt, World (behavior_refs w) (local_ids w) (zmk_keymap w) (ext w)
                  (notifications w ++ [n])).

(** ** The protobuf output stream

    The encoder callbacks write through nanopb; each call answers whether it
    succeeded and the stream it leaves. *)

Class PbStream (S : Type) := {
  pb_encode_tag_for_field : S → bool * S;
  pb_encode_submessage_BehaviorBinding : zmk_keymap_BehaviorBinding → S → bool * S
}.

(** ** [keymap_subsystem.c] *)

Module Studio.
Section Handlers.
Context {E : Type} `{!Collaborators E}.
Variable cfg : config.
Local Open Scope rpc_scope.

Definition keymap_set (layer idx : Z) (binding : zmk_behavior_binding) : M E Z :=
  λ w, let '(r, km) := zmk_keymap_set_layer_binding_at_idx (zmk_keymap w) layer idx binding in
       (r, World (behavior_refs w) (local_ids w) km (ext w) (notifications w)).

Definition set_layer_binding (set_req : zmk_keymap_SetLayerBindingRequest)
    : M E zmk_Response :=
  let bid := to_uint16 (behavior_id (req_binding set_req)) in
  ids <- gets local_ids ;;
  match Behavior.zmk_behavior_find_behavior_name_from_local_id ids bid with
  | None => ret (Response_set_layer_binding SetLayerBinding_INVALID_BEHAVIOR)
  | Some behavior_name =>
      let binding := Binding (Some behavior_name)
                             (bb_param1 (req_binding set_req))
                             (bb_param2 (req_binding set_req)) in
      refs <- gets behavior_refs ;;
      let r := Behavior.zmk_behavior_validate_binding cfg refs binding in
      if r <? 0 then ret (Response_set_layer_binding SetLayerBinding_INVALID_PARAMETERS)
      else
        r <- keymap_set (req_layer set_req) (req_key_position set_req) binding ;;
        if r <? 0 then
          if r =? - EINVAL
          then ret (Response_set_layer_binding SetLayerBinding_INVALID_LOCATION)
          else ret (ZMK_RPC_SIMPLE_ERR GENERIC)
        else
          raise_zmk_studio_rpc_notification (unsaved_changes_status_changed true) ;;
          ret (Response_set_layer_binding SetLayerBinding_SUCCESS)
  end.

Definition check_unsaved_changes : M E zmk_Response :=
  layout_changes <- gets (λ w, zmk_physical_layouts_check_unsaved_selection (ext w)) ;;
  keymap_changes <- gets (λ w, zmk_keymap_check_unsaved_changes (zmk_keymap w) (ext w)) ;;
  ret (Response_check_unsaved_changes ((0 <? layout_changes) || (0 <? keymap_changes))).

Definition save_changes : M E zmk_Response :=
  r <- call_ext zmk_physical_layouts_save_selected ;;
  if r <? 0 then ret (ZMK_RPC_SIMPLE_ERR GENERIC)
  else
    km <- gets zmk_keymap ;;
    r <- call_ext (zmk_keymap_save_changes km) ;;
    if r <? 0 then ret (ZMK_RPC_SIMPLE_ERR GENERIC)
    else
      raise_zmk_studio_rpc_notification (unsaved_changes_status_changed false) ;;
      ret (Response_save_changes true).

Definition keymap_discard : M E Z :=
  λ w, let '(r, km, e) := zmk_keymap_discard_changes (zmk_keymap w) (ext w) in
       (r, World (behavior_refs w) (local_ids w) km e (notifications w)).

Definition discard_changes : M E zmk_Response :=
  r <- call_ext zmk_physical_layouts_revert_selected ;;
  if r <? 0 then ret (ZMK_RPC_SIMPLE_ERR GENERIC)
  else
    r <- keymap_discard ;;
    if r <? 0 then ret (ZMK_RPC_SIMPLE_ERR GENERIC)
    else
      raise_zmk_studio_rpc_notification (unsaved_changes_status_changed false) ;;
      ret (Response_discard_changes true).

(** [memset (&new_layer[b], 0, sizeof ...)] *)
Definition zero_binding : zmk_behavior_binding := Binding None 0 0.

(** One turn of the first inner loop of [migrate_keymap]: the value given
    to [new_layer[b]] when [new_to_old_map[b]] is [old_b]. *)
Definition new_layer_cell (km : keymap) (l old_b : Z) : zmk_behavior_binding :=
  if old_b =? UINT32_MAX then zero_binding
  else
    match zmk_keymap_get_layer_binding_at_idx km l old_b with
    | None => zero_binding
    | Some binding => binding
    end.

(** The first inner loop, over the [layout_size] entries the position map
    holds. *)
Definition build_new_layer (km : keymap) (l : Z) (entries : list Z)
    : list zmk_behavior_binding :=
  new_layer_cell km l <$> entries.

(** The second inner loop: [new_layer[b]] is written to position [b],
    [b] counting up from its start value. *)
Fixpoint write_new_layer (km : keymap) (l b : Z) (new_layer : list zmk_behavior_binding)
    : keymap :=
  match new_layer with
  | [] => km
  | x :: rest =>
      write_new_layer (zmk_keymap_set_layer_binding_at_idx km l b x).2 l (b + 1) rest
  end.

Definition migrate_layer (entries : list Z) (km : keymap) (l : Z) : keymap :=
  write_new_layer km l 0 (build_new_layer km l entries).

(** The outer loop, [l] from 0 to [ZMK_KEYMAP_LAYERS_LEN - 1]. *)
Definition migrate_layers (entries : list Z) (km : keymap) : keymap :=
  foldl (migrate_layer entries) km
        (Z.of_nat <$> seq 0 (Z.to_nat (ZMK_KEYMAP_LAYERS_LEN cfg))).

(** [new_to_old_map] is the array the layout store fills; its first
    [layout_size] entries are read. *)
Definition migrate_keymap (old : Z) : M E unit :=
  let old := to_uint8 old in
  new <- gets (λ w, zmk_physical_layouts_get_selected (ext w)) ;;
  pm <- gets (λ w, zmk_physical_layouts_get_position_map old new (ext w)) ;;
  let '(layout_size, new_to_old_map) := pm in
  if layout_size <? 0 then ret tt
  else
    km <- gets zmk_keymap ;;
    set_keymap (migrate_layers (take (Z.to_nat layout_size) new_to_old_map) km).

Definition set_active_physical_layout (req : Z) : M E zmk_Response :=
  let index := to_uint8 req in
  old <- gets (λ w, zmk_physical_layouts_get_selected (ext w)) ;;
  if old =? index
  then ret (Response_set_active_physical_layout SetActivePhysicalLayout_ok)
  else
    r <- call_ext (zmk_physical_layouts_select index) ;;
    resp <- (if 0 <=? r
             then migrate_keymap old ;; ret SetActivePhysicalLayout_ok
             else ret (SetActivePhysicalLayout_err SetActivePhysicalLayout_GENERIC)) ;;
    raise_zmk_studio_rpc_notification (unsaved_changes_status_changed true) ;;
    ret (Response_set_active_physical_layout resp).

(** The message [encode_layer_bindings] builds for one cell. *)
Definition binding_message
    (ids : list zmk_behavior_local_id_map) (binding : zmk_behavior_binding)
    : zmk_keymap_BehaviorBinding :=
  BehaviorBinding (Behavior.zmk_behavior_get_local_id ids (behavior_dev binding))
                  (param1 binding) (param2 binding).

(** The loop of [encode_layer_bindings] over the positions still to do.
    [None] stands for the dereference of a [NULL] binding: the callback
    reads [binding->behavior_dev] without a check. *)
Fixpoint encode_bindings_loop {S : Type} `{!PbStream S}
    (ids : list zmk_behavior_local_id_map) (km : keymap) (layer_idx : Z)
    (positions : list Z) (stream : S) : option (bool * S) :=
  match positions with
  | [] => Some (true, stream)
  | b :: rest =>
      match zmk_keymap_get_layer_binding_at_idx km layer_idx b with
      | None => None
      | Some binding =>
          let bb := binding_message ids binding in
          let '(ok, stream) := pb_encode_tag_for_field stream in
          if negb ok then Some (false, stream)
          else
            let '(ok, stream) := pb_encode_submessage_BehaviorBinding bb stream in
            if negb ok then Some (false, stream)
            else encode_bindings_loop ids km layer_idx rest stream
      end
  end.

Definition encode_layer_bindings {S : Type} `{!PbStream S}
    (ids : list zmk_behavior_local_id_map) (km : keymap) (layer_idx : Z) (stream : S)
    : option (bool * S) :=
  encode_bindings_loop ids km layer_idx
    (Z.of_nat <$> seq 0 (Z.to_nat (ZMK_KEYMAP_LEN cfg))) stream.

End Handlers.
End Studio.

(** ** The rules of the design document, in its own words

    These definitions follow the document, not the code; the theorems below
    compare them with the functions above. *)

Module Design.

Inductive value_result := Match | Unsupported | NoSpecsDeclared.
Inductive binding_result := Ok | Invalid.

(** How the return code of [zmk_behavior_validate_param_values] reads as a
    result of [validateValue]: 0 is a match, [-ENODEV] is "no specs
    declared", [-ENOTSUP] is "unsupported". *)
Definition validateValue
    (cfg : config) (specs : list behavior_parameter_value_metadata) (value : Z)
    : value_result :=
  let r := Behavior.zmk_behavior_validate_param_values cfg specs value in
  if 0 <=? r then Match
  else if r =? - ENODEV then NoSpecsDeclared
  else Unsupported.

(** A return code read as a result of [validateBinding], the way the
    callers test it ([ret < 0]). *)
Definition binding_result_of (r : Z) : binding_result :=
  if r <? 0 then Invalid else Ok.

(** "param passes iff its validator call returns Match, or returns
    NoSpecsDeclared and param == 0" *)
Definition passes (r : value_result) (param : Z) : bool :=
  match r with
  | Match => true
  | NoSpecsDeclared => param =? 0
  | Unsupported => false
  end.

Definition set_passes
    (cfg : config) (set : behavior_parameter_metadata_set) (p1 p2 : Z) : bool :=
  passes (validateValue cfg (param1_values set) p1) p1
  && passes (validateValue cfg (param2_values set) p2) p2.

(** "If metadata is absent or has no sets: succeeds only if both params are
    0, else Invalid.  Otherwise ... the first set where both params pass
    yields overall success; if no set passes, overall result is Invalid." *)
Definition validateBinding
    (cfg : config) (metadata : option behavior_parameter_metadata) (p1 p2 : Z)
    : binding_result :=
  match metadata with
  | None | Some [] => if (p1 =? 0) && (p2 =? 0) then Ok else Invalid
  | Some sets =>
      match list_find (λ set, set_passes cfg set p1 p2 = true) sets with
      | Some _ => Ok
      | None => Invalid
      end
  end.

(** "page Key: invalid if usageId == 0, or if usageId exceeds the NKRO
    maximum while also falling outside the contiguous modifier-key usage-id
    range; page Consumer: invalid if usageId exceeds a build-configured
    ceiling (0xFF or 0xFFF); any other page is invalid." *)
Definition hid_usage_invalid (cfg : config) (usage_page usage_id : Z) : bool :=
  if usage_page =? HID_USAGE_KEY then
    (usage_id =? 0)
    || ((ZMK_HID_KEYBOARD_NKRO_MAX_USAGE cfg <? usage_id)
        && negb ((LEFT_CONTROL cfg <=? usage_id) && (usage_id <=? RIGHT_GUI cfg)))
  else if usage_page =? HID_USAGE_CONSUMER then
    (if CONFIG_ZMK_HID_CONSUMER_REPORT_USAGES_BASIC cfg then 0xFF else 0xFFF) <? usage_id
  else true.

(** "LayerIndex: matches iff 0 <= value < layerCount" *)
Definition layer_index_matches (cfg : config) (value : Z) : bool :=
  (0 <=? value) && (value <? ZMK_KEYMAP_LAYERS_LEN cfg).

End Design.

(** ** A small board to evaluate on

    Six key positions, two layers, the basic consumer report, the
    non-extended NKRO report (largest usage 0x67, "keypad ="), modifiers at
    usage ids 0xE0..0xE7, and a usage packed as [page << 16 | id]. *)

Definition board : config := {|
  CONFIG_ZMK_BEHAVIOR_METADATA := true;
  CONFIG_ZMK_HID_CONSUMER_REPORT_USAGES_BASIC := true;
  ZMK_KEYMAP_LEN := 6;
  ZMK_KEYMAP_LAYERS_LEN := 2;
  ZMK_HID_KEYBOARD_NKRO_MAX_USAGE := 0x67;
  LEFT_CONTROL := 0xE0;
  RIGHT_GUI := 0xE7;
  ZMK_HID_USAGE_PAGE := λ usage, Z.land (Z.shiftr usage 16) 0xFF;
  ZMK_HID_USAGE_ID := λ usage, Z.land usage 0xFFFF
|}.

Definition kp_md : behavior_parameter_metadata :=
  [MetadataSet [BEHAVIOR_PARAMETER_VALUE_TYPE_HID_USAGE] []].
Definition mo_md : behavior_parameter_metadata :=
  [MetadataSet [BEHAVIOR_PARAMETER_VALUE_TYPE_LAYER_INDEX] []].

Definition dev_kp : device := Device (CStr 0x1000 "key_press") true (0, kp_md).
Definition dev_mo : device := Device (CStr 0x1010 "momentary_layer") true (0, mo_md).
Definition dev_trans : device := Device (CStr 0x1020 "transparent") true (0, []).
(** A behaviour whose driver failed to initialise. *)
Definition dev_down : device := Device (CStr 0x1030 "soft_off") false (0, []).
(** A behaviour whose metadata query fails. *)
Definition dev_nometa : device := Device (CStr 0x1040 "macro") true (- ENODEV, []).

Definition bA : zmk_behavior_binding := Binding (Some (name dev_kp)) 0x070004 0.
Definition bB : zmk_behavior_binding := Binding (Some (name dev_kp)) 0x070005 0.
Definition bC : zmk_behavior_binding := Binding (Some (name dev_kp)) 0x070006 0.
Definition bD : zmk_behavior_binding := Binding (Some (name dev_kp)) 0x070007 0.
Definition bE : zmk_behavior_binding := Binding (Some (name dev_mo)) 1 0.
Definition bF : zmk_behavior_binding := Binding (Some (name dev_trans)) 0 0.

(** Collaborators that answer from a script: which layout is selected, how
    many layouts there are, the position map, and the codes the two save
    calls return. *)
Record script := Script {
  selected : Z;
  layout_count : Z;
  position_map : Z * list Z;
  save_selected_ret : Z;
  keymap_save_ret : Z
}.

#[export] Instance scripted : Collaborators script := {|
  zmk_physical_layouts_get_selected s := selected s;
  zmk_physical_layouts_select idx s :=
    if idx <? layout_count s
    then (0, Script idx (layout_count s) (position_map s)
                    (save_selected_ret s) (keymap_save_ret s))
    else (- EINVAL, s);
  zmk_physical_layouts_get_position_map _ _ s := position_map s;
  zmk_physical_layouts_check_unsaved_selection _ := 0;
  zmk_physical_layouts_save_selected s := (save_selected_ret s, s);
  zmk_physical_layouts_revert_selected s := (0, s);
  zmk_keymap_check_unsaved_changes _ _ := 0;
  zmk_keymap_save_changes _ s := (keymap_save_ret s, s);
  zmk_keymap_discard_changes km s := (0, km, s)
|}.

Definition SENTINEL : Z := UINT32_MAX.

Definition board_script : script :=
  Script 0 2 (6, [2; 3; SENTINEL; SENTINEL; 0; 1]) 0 0.

Definition board_world (s : script) : world script := {|
  behavior_refs := [dev_kp; dev_mo; dev_trans; dev_down; dev_nometa];
  local_ids := [LocalIdMap dev_kp 1; LocalIdMap dev_mo 2; LocalIdMap dev_trans 3;
                LocalIdMap dev_down 4; LocalIdMap dev_nometa 5];
  zmk_keymap := [[bA; bB; bC; bD; bE; bF]; [bF; bF; bF; bF; bF; bF]];
  ext := s;
  notifications := []
|}.

(** A settings library to evaluate with: names are split at the [/]
    (character 47) that follows the key, [=] (61) ends a name, and numbers
    are read as a run of decimal digits. *)
Definition digit_of (c : Ascii.ascii) : option Z :=
  let n := Z.of_nat (Ascii.nat_of_ascii c) in
  if (48 <=? n) && (n <=? 57) then Some (n - 48) else None.

Fixpoint read_digits (s : string) (acc : Z) : Z * string :=
  match s with
  | EmptyString => (acc, EmptyString)
  | String c rest =>
      match digit_of c with
      | Some d => read_digits rest (10 * acc + d)
      | None => (acc, s)
      end
  end.

Fixpoint split_key (name key : string) : Z * option string :=
  match key, name with
  | EmptyString, EmptyString => (1, None)
  | EmptyString, String c rest =>
      if Nat.eqb (Ascii.nat_of_ascii c) 47 then (1, Some rest)
      else if Nat.eqb (Ascii.nat_of_ascii c) 61 then (1, None) else (0, None)
  | String k key', String c rest =>
      if bool_decide (k = c) then split_key rest key' else (0, None)
  | String _ _, EmptyString => (0, None)
  end.

#[export] Instance board_settings : SettingsLib := {|
  settings_name_steq := split_key;
  strtoul s _ := read_digits s 0
|}.

(** A stream that records what is written and has room for [room] more
    writes. *)
Inductive pb_item :=
| Pb_tag
| Pb_binding (bb : zmk_keymap_BehaviorBinding).

Record recorder := Recorder { written : list pb_item; room : nat }.

Definition record (item : pb_item) (s : recorder) : bool * recorder :=
  match room s with
  | O => (false, s)
  | S n => (true, Recorder (written s ++ [item]) n)
  end.

#[export] Instance recorder_stream : PbStream recorder := {|
  pb_encode_tag_for_field := record Pb_tag;
  pb_encode_submessage_BehaviorBinding bb := record (Pb_binding bb)
|}.

(** ** Predicates used in the statements *)

(** The names of the ready devices, in registration order. *)
Definition ready_names (refs : list device) : list string :=
  (λ d, c_chars (name d)) <$> filter (λ d, is_ready d = true) refs.

(** The ids of the ready entries of the identity table, and their names. *)
Definition ready_ids (ids : list zmk_behavior_local_id_map) : list Z :=
  local_id <$> filter (λ item, is_ready (lid_device item) = true) ids.

Definition ready_id_names (ids : list zmk_behavior_local_id_map) : list string :=
  (λ item, c_chars (name (lid_device item)))
    <$> filter (λ item, is_ready (lid_device item) = true) ids.

(** The ids that are assigned (not 0), in table order. *)
Definition assigned_ids (ids : list zmk_behavior_local_id_map) : list Z :=
  filter (λ id, id ≠ 0) (local_id <$> ids).

(** How many entries are still unassigned. *)
Definition unassigned_count (ids : list zmk_behavior_local_id_map) : nat :=
  length (filter (λ item, local_id item = 0) ids).

(** The counter is at least every id of the table, and no id is negative. *)
Definition counter_covers (st : Behavior.local_id_state) : Prop :=
  Forall (λ item, 0 <= local_id item <= Behavior.largest_local_id st)
         (Behavior.id_table st).

(** One stored setting as the settings subsystem hands it to the handler. *)
Record stored_setting := StoredSetting {
  ss_key : string;
  ss_len : Z;
  ss_read_cb : Z → Z * string
}.

(** Replaying stored settings through [behavior_handle_set], one call per
    setting, return codes ignored. *)
Definition replay `{!SettingsLib}
    (settings : list stored_setting) (st : Behavior.local_id_state)
    : Behavior.local_id_state :=
  foldl (λ st s, (Behavior.behavior_handle_set (ss_key s) (ss_len s) (ss_read_cb s) st).2)
        st settings.

(** The identity table of a first boot: every device unassigned. *)
Definition fresh_table (devices : list device) : Behavior.local_id_state :=
  Behavior.LocalIdState ((λ d, LocalIdMap d 0) <$> devices) 0 [].

(** A stored setting hands back a saved pair: the handler gets the name
    below the [behavior] subtree, the length of the value, and a read
    callback that delivers the value whole. *)
Definition hands_back (saved : string * string) (s : stored_setting) : Prop :=
  saved.1 = "behavior/" +:+ ss_key s
  ∧ ss_len s = Z.of_nat (String.length saved.2)
  ∧ 0 < ss_len s < 64
  ∧ ss_read_cb s (ss_len s) = (ss_len s, saved.2).

(** What a stream holds after a layer was encoded completely: a tag and a
    binding message per cell. *)
Definition layer_items
    (ids : list zmk_behavior_local_id_map) (row : list zmk_behavior_binding)
    : list pb_item :=
  row ≫= λ binding, [Pb_tag; Pb_binding (Studio.binding_message ids binding)].

(** * Properties *)

(** ** HID usages *)

(** On page Key the second disjunct of the guard can never hold: no usage id
    is both below [LEFT_CONTROL] and above [RIGHT_GUI] when the modifier
    range is not empty.  So the code rejects usage id 0 and nothing else. *)
Lemma validate_hid_usage_key (cfg : config) (usage_id : Z) :
  LEFT_CONTROL cfg <= RIGHT_GUI cfg →
  Behavior.validate_hid_usage cfg HID_USAGE_KEY usage_id
  = if usage_id =? 0 then - EINVAL else 0.
Proof.
  intros Hrange. unfold Behavior.validate_hid_usage.
  rewrite Z.eqb_refl.
  destruct (usage_id =? 0); [reflexivity|]. cbn [orb].
  destruct (Z.ltb_spec usage_id (LEFT_CONTROL cfg)) as [Hlo|Hlo];
    destruct (Z.ltb_spec (RIGHT_GUI cfg) usage_id) as [Hhi|Hhi];
    rewrite ?andb_false_r, ?andb_true_r; cbn; try reflexivity; lia.
Qed.

Lemma validate_hid_usage_key_witness :
  Behavior.validate_hid_usage board HID_USAGE_KEY 0xF0 = 0.
Proof. exact (validate_hid_usage_key board 0xF0 ltac:(cbn; lia)). Defined.

(** On page Consumer and on every other page the code follows the rule of
    the design. *)
Lemma validate_hid_usage_other_pages (cfg : config) (usage_page usage_id : Z) :
  usage_page ≠ HID_USAGE_KEY →
  (Behavior.validate_hid_usage cfg usage_page usage_id <? 0)
  = Design.hid_usage_invalid cfg usage_page usage_id.
Proof.
  intros Hpage. unfold Behavior.validate_hid_usage, Design.hid_usage_invalid.
  destruct (Z.eqb_spec usage_page HID_USAGE_KEY) as [->|_]; [done|].
  destruct (usage_page =? HID_USAGE_CONSUMER); [|reflexivity].
  destruct (_ <? usage_id); reflexivity.
Qed.

Lemma validate_hid_usage_consumer_basic (cfg : config) (usage_id : Z) :
  CONFIG_ZMK_HID_CONSUMER_REPORT_USAGES_BASIC cfg = true →
  Behavior.validate_hid_usage cfg HID_USAGE_CONSUMER usage_id
  = if 0xFF <? usage_id then - EINVAL else 0.
Proof. intros Hb. unfold Behavior.validate_hid_usage. rewrite Hb. reflexivity. Qed.

(** C1.  The design rejects a Key usage id that is above the NKRO maximum and
    outside the modifier range LEFT_CONTROL..RIGHT_GUI.  The code does not:
    usage id 0xE8 on page Key (above the NKRO maximum 0x67 and above
    RIGHT_GUI = 0xE7) is accepted by [validate_hid_usage], and so is the
    parameter value 0x0700E8 by a HidUsage value description, while the rule
    of the design rejects it.  The Consumer examples of the design (0xFF
    valid, 0x100 invalid) and "Key, usage id 0 is invalid" hold. *)
Theorem validate_hid_usage_accepts_key_above_nkro_outside_modifiers :
  Behavior.validate_hid_usage board HID_USAGE_KEY 0xE8 = 0
  ∧ Design.hid_usage_invalid board HID_USAGE_KEY 0xE8 = true
  ∧ Behavior.zmk_behavior_validate_param_values board
      [BEHAVIOR_PARAMETER_VALUE_TYPE_HID_USAGE] 0x0700E8 = 0
  ∧ Behavior.validate_hid_usage board HID_USAGE_KEY 0 = - EINVAL
  ∧ Behavior.validate_hid_usage board HID_USAGE_CONSUMER 0xFF = 0
  ∧ Behavior.validate_hid_usage board HID_USAGE_CONSUMER 0x100 = - EINVAL.
Proof. repeat split; reflexivity. Qed.

(** ** Layer indices *)

(** What the code tests for a LayerIndex description: the bound is
    [ZMK_KEYMAP_LEN], the number of key positions. *)
Lemma layer_index_matches_keymap_len (cfg : config) (param : Z) :
  Behavior.zmk_behavior_validate_param_values cfg
    [BEHAVIOR_PARAMETER_VALUE_TYPE_LAYER_INDEX] param = 0
  ↔ 0 <= param < ZMK_KEYMAP_LEN cfg.
Proof.
  cbn. destruct (Z.leb_spec 0 param), (Z.ltb_spec param (ZMK_KEYMAP_LEN cfg));
    cbn; split; intros; try lia; try discriminate.
Qed.

(** C2.  A LayerIndex description should match exactly the values below the
    number of layers.  On the board (2 layers, 6 key positions) the code
    matches the value 3: it compares with [ZMK_KEYMAP_LEN], the number of key
    positions of a layer, where the layer count is [ZMK_KEYMAP_LAYERS_LEN]. *)
Theorem layer_index_accepts_value_beyond_layer_count :
  Behavior.zmk_behavior_validate_param_values board
    [BEHAVIOR_PARAMETER_VALUE_TYPE_LAYER_INDEX] 3 = 0
  ∧ Design.layer_index_matches board 3 = false
  ∧ ¬ (0 <= 3 < ZMK_KEYMAP_LAYERS_LEN board).
Proof. repeat split; try reflexivity. cbn. lia. Qed.

(** ** Parameter sets *)

Lemma validate_param_values_codes (cfg : config) specs (param : Z) :
  Behavior.zmk_behavior_validate_param_values cfg specs param
  = match specs with
    | [] => - ENODEV
    | _ => if Behavior.found_match cfg specs param then 0 else - ENOTSUP
    end.
Proof. reflexivity. Qed.

(** The design's "passes" is the test the code applies to a return code. *)
Lemma passes_code (cfg : config) specs (param : Z) :
  Design.passes (Design.validateValue cfg specs param) param
  = let r := Behavior.zmk_behavior_validate_param_values cfg specs param in
    (0 <=? r) || ((r =? - ENODEV) && (param =? 0)).
Proof.
  unfold Design.validateValue. cbn zeta.
  destruct specs as [|s specs]; [reflexivity|].
  rewrite validate_param_values_codes.
  destruct (Behavior.found_match _ _ _); reflexivity.
Qed.

Lemma set_accepts_passes (cfg : config) set (p1 p2 : Z) :
  Behavior.set_accepts cfg set p1 p2 = Design.set_passes cfg set p1 p2.
Proof. unfold Behavior.set_accepts, Design.set_passes. by rewrite !passes_code. Qed.

Lemma sets_loop_spec (cfg : config) sets (p1 p2 : Z) :
  Behavior.sets_loop cfg sets p1 p2
  = match list_find (λ set, Design.set_passes cfg set p1 p2 = true) sets with
    | Some _ => 0
    | None => - EINVAL
    end.
Proof.
  induction sets as [|set sets IH]; [reflexivity|].
  cbn [Behavior.sets_loop list_find]. rewrite set_accepts_passes.
  case_decide as Hp.
  - by rewrite Hp.
  - apply not_true_is_false in Hp. rewrite Hp, IH.
    by destruct (list_find _ sets) as [[??]|].
Qed.

(** C3.  [zmk_behavior_validate_params_metadata] is the design's
    [validateBinding]: with no metadata or no sets it succeeds iff both
    parameters are 0; otherwise it succeeds iff some set, the first one in
    declared order, lets both parameters pass, a parameter passing when its
    [validateValue] is Match, or is NoSpecsDeclared with the parameter 0.
    Success is the code 0; Invalid is a negative code ([-ENODEV] without
    sets, [-EINVAL] when no set passes).  An empty spec list gives
    NoSpecsDeclared for every value. *)
Theorem validate_params_metadata_is_validateBinding
    (cfg : config) (metadata : option behavior_parameter_metadata) (p1 p2 : Z) :
  let r := Behavior.zmk_behavior_validate_params_metadata cfg metadata p1 p2 in
  Design.binding_result_of r = Design.validateBinding cfg metadata p1 p2
  ∧ (r = 0 ∨ r = - ENODEV ∨ r = - EINVAL)
  ∧ (r = 0 ↔ Design.validateBinding cfg metadata p1 p2 = Design.Ok)
  ∧ (∀ x, Design.validateValue cfg [] x = Design.NoSpecsDeclared)
  ∧ (∀ sets, metadata = Some sets → sets ≠ [] →
       (r = 0 ↔ ∃ i set, sets !! i = Some set
                  ∧ Design.set_passes cfg set p1 p2 = true
                  ∧ ∀ j set', (j < i)%nat → sets !! j = Some set' →
                      Design.set_passes cfg set' p1 p2 = false)).
Proof.
  cbn zeta.
  assert (Hloop : ∀ sets,
    let r := Behavior.sets_loop cfg sets p1 p2 in
    Design.binding_result_of r
    = match list_find (λ set, Design.set_passes cfg set p1 p2 = true) sets with
      | Some _ => Design.Ok | None => Design.Invalid end
    ∧ (r = 0 ∨ r = - ENODEV ∨ r = - EINVAL)
    ∧ (r = 0 ↔ is_Some (list_find (λ set, Design.set_passes cfg set p1 p2 = true) sets))).
  { intros sets. cbn zeta. rewrite sets_loop_spec.
    destruct (list_find _ sets) as [[??]|]; cbn.
    - repeat split; eauto.
    - repeat split; eauto; [intros; discriminate | intros [? ?]; discriminate]. }
  assert (Hnone :
    let r := if (p1 =? 0) && (p2 =? 0) then 0 else - ENODEV in
    Design.binding_result_of r = (if (p1 =? 0) && (p2 =? 0) then Design.Ok else Design.Invalid)
    ∧ (r = 0 ∨ r = - ENODEV ∨ r = - EINVAL)
    ∧ (r = 0 ↔ (if (p1 =? 0) && (p2 =? 0) then Design.Ok else Design.Invalid) = Design.Ok)).
  { cbn zeta. destruct ((p1 =? 0) && (p2 =? 0)); cbn; repeat split; eauto; discriminate. }
  split_and!.
  - destruct metadata as [[|set sets]|]; try apply Hnone. apply (Hloop (set :: sets)).
  - destruct metadata as [[|set sets]|]; try apply Hnone. apply (Hloop (set :: sets)).
  - destruct metadata as [[|set sets]|]; try apply Hnone.
    destruct (Hloop (set :: sets)) as (_ & _ & ->).
    unfold Design.validateBinding.
    destruct (list_find _ (set :: sets)) as [[??]|]; split; eauto;
      try discriminate; intros [? ?]; discriminate.
  - reflexivity.
  - intros sets -> Hne. destruct sets as [|set sets]; [done|].
    unfold Behavior.zmk_behavior_validate_params_metadata.
    destruct (Hloop (set :: sets)) as (_ & _ & ->).
    split.
    + intros [[i s] Hfind]. apply list_find_Some in Hfind as (Hi & Hs & Hbefore).
      exists i, s. split_and!; [done..|].
      intros j s' Hj Hs'. apply not_true_is_false. eauto.
    + intros (i & s & Hi & Hs & Hbefore). exists (i, s).
      apply list_find_Some. split_and!; [done..|].
      intros j s' Hs' Hj. rewrite (Hbefore j s' Hj Hs'). discriminate.
Qed.

(** The two examples of the design for absent metadata. *)
Lemma validate_params_metadata_absent_examples (cfg : config) :
  Behavior.zmk_behavior_validate_params_metadata cfg None 0 0 = 0
  ∧ Behavior.zmk_behavior_validate_params_metadata cfg None 5 0 = - ENODEV.
Proof. split; reflexivity. Qed.

(** ** Local ids under the persistent counter *)

(** Committing a table in which nothing is assigned yet numbers the items
    upwards from the counter, as long as the counter does not wrap. *)
Lemma commit_items_unassigned items (k : Z) :
  Forall unassigned items →
  0 <= k → k + Z.of_nat (length items) <= UINT16_MAX →
  Behavior.commit_items items k
  = (imap (λ i item, LocalIdMap (lid_device item) (k + 1 + Z.of_nat i)) items,
     k + Z.of_nat (length items),
     imap (λ i item, (Behavior.setting_name (k + 1 + Z.of_nat i),
                      c_chars (name (lid_device item)))) items).
Proof.
  unfold UINT16_MAX.
  revert k. induction items as [|item items IH]; intros k Hun Hk Hlen.
  - cbn. do 2 f_equal. lia.
  - inversion Hun as [|?? H0 Hrest]; subst. unfold unassigned in H0.
    cbn [Behavior.commit_items length] in *. rewrite H0. cbn [Z.eqb negb].
    assert (Hid : to_uint16 (k + 1) = k + 1).
    { unfold to_uint16. apply Z.mod_small. lia. }
    rewrite Hid, (IH (k + 1)) by (done || lia).
    cbn [imap]. rewrite Z.add_0_r. f_equal; [f_equal|]; [f_equal| lia |f_equal].
    + apply imap_ext. intros i x _. cbn. f_equal. lia.
    + apply imap_ext. intros i x _. cbn. do 2 f_equal. lia.
Qed.

(** Looking an id up finds the first ready item that carries it. *)
Lemma find_name_first ids (i : nat) item :
  ids !! i = Some item →
  is_ready (lid_device item) = true →
  (∀ j item', (j < i)%nat → ids !! j = Some item' → local_id item' ≠ local_id item) →
  Behavior.zmk_behavior_find_behavior_name_from_local_id ids (local_id item)
  = Some (name (lid_device item)).
Proof.
  unfold Behavior.zmk_behavior_find_behavior_name_from_local_id.
  revert i. induction ids as [|x ids IH]; intros i Hi Hready Hbefore; [done|].
  cbn [find]. destruct i as [|i].
  - cbn in Hi. injection Hi as ->. by rewrite Hready, Z.eqb_refl.
  - assert (Hx : local_id x ≠ local_id item) by (apply (Hbefore 0%nat); [lia|done]).
    apply Z.eqb_neq in Hx. rewrite Hx, andb_false_r.
    apply (IH i); [done..|]. intros j item' Hj Hl.
    apply (Hbefore (S j)); [lia|done].
Qed.

(** An item that is not ready is never found, whatever its id. *)
Lemma find_name_skips_not_ready ids (id : Z) nm :
  Behavior.zmk_behavior_find_behavior_name_from_local_id ids id = Some nm →
  ∃ item, item ∈ ids ∧ is_ready (lid_device item) = true
          ∧ local_id item = id ∧ name (lid_device item) = nm.
Proof.
  unfold Behavior.zmk_behavior_find_behavior_name_from_local_id.
  destruct (find _ ids) as [item|] eqn:Hf; [|done]. intros [= <-].
  apply find_some in Hf as [Hin Hp]. apply andb_true_iff in Hp as [Hr Hid].
  exists item. split_and!; [by apply list_elem_of_In | done | by apply Z.eqb_eq | done].
Qed.

(** The last of the unassigned items of a table gets the counter value that
    follows the ids of the others, narrowed to 16 bits. *)
Lemma commit_items_last_unassigned items item (k : Z) :
  Forall unassigned items → unassigned item →
  0 <= k → k + Z.of_nat (length items) <= UINT16_MAX →
  (Behavior.commit_items (items ++ [item]) k).1.1 !! length items
  = Some (LocalIdMap (lid_device item) (to_uint16 (k + Z.of_nat (length items) + 1))).
Proof.
  unfold UINT16_MAX.
  revert k. induction items as [|x items IH]; intros k Hun Hlast Hk Hlen.
  - unfold unassigned in Hlast. cbn. rewrite Hlast. cbn. by rewrite Z.add_0_r.
  - inversion Hun as [|?? H0 Hrest]; subst. unfold unassigned in H0.
    cbn [Behavior.commit_items length app] in *. rewrite H0. cbn [Z.eqb negb].
    assert (Hid : to_uint16 (k + 1) = k + 1).
    { unfold to_uint16. apply Z.mod_small. lia. }
    rewrite Hid. specialize (IH (k + 1) Hrest Hlast ltac:(lia) ltac:(lia)).
    destruct (Behavior.commit_items (items ++ [item]) (k + 1)) as [[rest' largest'] saved].
    cbn [fst] in *. cbn. etrans; [exact IH|]. do 3 f_equal. lia.
Qed.

(** C7, amended.  With nothing persisted before (every item unassigned, the
    counter at 0) and at most 65535 behaviours, the commit gives the
    behaviours the ids 1..N in registration order, keeps their devices and
    saves one setting per behaviour; afterwards the lookup of an assigned id
    returns the name of its behaviour when the device of that behaviour is
    ready, and returns nothing when it is not. *)
Theorem commit_assigns_1_to_N_and_ready_names_are_found items :
  Forall unassigned items →
  Z.of_nat (length items) <= UINT16_MAX →
  let st := (Behavior.behavior_handle_commit (Behavior.LocalIdState items 0 [])).2 in
  local_id <$> Behavior.id_table st = (λ i, Z.of_nat (S i)) <$> seq 0 (length items)
  ∧ lid_device <$> Behavior.id_table st = lid_device <$> items
  ∧ Behavior.largest_local_id st = Z.of_nat (length items)
  ∧ length (Behavior.saved_settings st) = length items
  ∧ ∀ (i : nat) item,
      Behavior.id_table st !! i = Some item →
      local_id item = Z.of_nat i + 1
      ∧ (is_ready (lid_device item) = true →
         Behavior.zmk_behavior_find_behavior_name_from_local_id
           (Behavior.id_table st) (local_id item)
         = Some (name (lid_device item)))
      ∧ (is_ready (lid_device item) = false →
         Behavior.zmk_behavior_find_behavior_name_from_local_id
           (Behavior.id_table st) (local_id item)
         = None).
Proof.
  intros Hun Hlen. unfold Behavior.behavior_handle_commit.
  cbn [Behavior.id_table Behavior.largest_local_id].
  rewrite (commit_items_unassigned items 0 Hun) by (done || lia).
  cbn [snd Behavior.id_table Behavior.largest_local_id Behavior.saved_settings app].
  assert (Hlook : ∀ (i : nat) item,
    imap (λ i item, LocalIdMap (lid_device item) (0 + 1 + Z.of_nat i)) items !! i
    = Some item →
    local_id item = Z.of_nat i + 1).
  { intros i item Hi. rewrite list_lookup_imap in Hi.
    destruct (items !! i); [|done]. cbn in Hi. injection Hi as <-. cbn. lia. }
  split_and!.
  - apply list_eq. intros i. rewrite !list_lookup_fmap, list_lookup_imap.
    destruct (items !! i) as [x|] eqn:Hx; cbn.
    + rewrite lookup_seq_lt by (by eapply lookup_lt_Some). cbn. f_equal. lia.
    + rewrite lookup_seq_ge; [done|]. by apply lookup_ge_None.
  - apply list_eq. intros i. rewrite !list_lookup_fmap, list_lookup_imap.
    by destruct (items !! i).
  - lia.
  - by rewrite length_imap.
  - intros i item Hi. split_and!; [by apply Hlook | |].
    + intros Hready.
      apply (find_name_first _ i); [done..|].
      intros j item' Hj Hj'. apply Hlook in Hi, Hj'. lia.
    + intros Hdown.
      destruct (Behavior.zmk_behavior_find_behavior_name_from_local_id _ (local_id item))
        as [nm|] eqn:Hfind; [|done].
      apply find_name_skips_not_ready in Hfind as (item' & Hin & Hready & Hid & _).
      apply list_elem_of_lookup in Hin as [j Hj].
      pose proof (Hlook _ _ Hi) as Hi'. pose proof (Hlook _ _ Hj) as Hj'.
      assert (j = i) as -> by lia.
      rewrite Hi in Hj. injection Hj as <-. congruence.
Qed.

Lemma commit_assigns_1_to_N_witness :
  let st := (Behavior.behavior_handle_commit
               (Behavior.LocalIdState
                  [LocalIdMap dev_kp 0; LocalIdMap dev_down 0; LocalIdMap dev_mo 0] 0 [])).2 in
  local_id <$> Behavior.id_table st = [1; 2; 3]
  ∧ Behavior.zmk_behavior_find_behavior_name_from_local_id (Behavior.id_table st) 3
    = Some (name dev_mo)
  ∧ Behavior.zmk_behavior_find_behavior_name_from_local_id (Behavior.id_table st) 2
    = None.
Proof.
  pose proof (commit_assigns_1_to_N_and_ready_names_are_found
                [LocalIdMap dev_kp 0; LocalIdMap dev_down 0; LocalIdMap dev_mo 0]
                ltac:(repeat constructor) ltac:(unfold UINT16_MAX; cbn; lia))
    as (Hids & _ & _ & _ & Hfind).
  split_and!; [exact Hids | |].
  - exact (proj1 (proj2 (Hfind 2%nat (LocalIdMap dev_mo 3) eq_refl)) eq_refl).
  - exact (proj2 (proj2 (Hfind 1%nat (LocalIdMap dev_down 2) eq_refl)) eq_refl).
Defined.

(** C7 as stated fails in two ways.  A behaviour whose device is not ready
    is given id 1, and the lookup of id 1 finds nothing.  And with 65536
    behaviours the 16-bit counter wraps: the last one is given id 0, the
    value that means "unassigned", not 65536. *)
Lemma commit_then_find_fails_not_ready_or_counter_wraps :
  (let st := (Behavior.behavior_handle_commit
                (Behavior.LocalIdState [LocalIdMap dev_down 0] 0 [])).2 in
   Behavior.id_table st = [LocalIdMap dev_down 1]
   ∧ Behavior.zmk_behavior_find_behavior_name_from_local_id (Behavior.id_table st) 1
     ≠ Some (name dev_down))
  ∧ (let st := (Behavior.behavior_handle_commit
                  (Behavior.LocalIdState
                     (replicate (Z.to_nat 65536) (LocalIdMap dev_kp 0)) 0 [])).2 in
     Behavior.id_table st !! Z.to_nat 65535 = Some (LocalIdMap dev_kp 0)).
Proof.
  split; [split; [reflexivity | discriminate]|].
  cbn zeta. unfold Behavior.behavior_handle_commit.
  cbn [Behavior.id_table Behavior.largest_local_id].
  replace (Z.to_nat 65536) with (S (Z.to_nat 65535)) by lia.
  rewrite replicate_S_end.
  pose proof (commit_items_last_unassigned
                (replicate (Z.to_nat 65535) (LocalIdMap dev_kp 0)) (LocalIdMap dev_kp 0) 0)
    as Hlast.
  rewrite length_replicate in Hlast.
  destruct (Behavior.commit_items _ 0) as [[items largest] saved].
  cbn [snd fst Behavior.id_table] in *. rewrite Hlast.
  - rewrite Z2Nat.id by lia. reflexivity.
  - apply Forall_replicate. reflexivity.
  - reflexivity.
  - lia.
  - unfold UINT16_MAX. lia.
Qed.

(** ** The keymap store *)

Lemma keymap_get_Some (km : keymap) (l b : Z) x :
  zmk_keymap_get_layer_binding_at_idx km l b = Some x
  ↔ 0 <= l ∧ 0 <= b ∧ ∃ row, km !! Z.to_nat l = Some row ∧ row !! Z.to_nat b = Some x.
Proof.
  unfold zmk_keymap_get_layer_binding_at_idx.
  destruct (Z.ltb_spec l 0), (Z.ltb_spec b 0); cbn;
    try (split; [done | intros (? & ? & _); lia]).
  destruct (km !! Z.to_nat l) as [row|].
  - split; [intros Hx; split_and!; eauto | intros (_ & _ & row' & [= <-] & Hx); done].
  - split; [done | intros (_ & _ & row' & ? & _); done].
Qed.

Lemma keymap_set_hit (km : keymap) (l b : Z) x :
  is_Some (zmk_keymap_get_layer_binding_at_idx km l b) →
  zmk_keymap_get_layer_binding_at_idx
    (zmk_keymap_set_layer_binding_at_idx km l b x).2 l b = Some x.
Proof.
  intros [y Hy]. unfold zmk_keymap_set_layer_binding_at_idx. rewrite Hy. cbn [snd].
  apply keymap_get_Some in Hy as (Hl & Hb & row & Hrow & Hy).
  apply keymap_get_Some. split_and!; [done..|].
  exists (<[Z.to_nat b := x]> row). split.
  - by rewrite list_lookup_alter_eq, Hrow.
  - apply list_lookup_insert_eq. by eapply lookup_lt_Some.
Qed.

Lemma keymap_set_frame (km : keymap) (l b l' b' : Z) x :
  l' ≠ l ∨ b' ≠ b →
  zmk_keymap_get_layer_binding_at_idx
    (zmk_keymap_set_layer_binding_at_idx km l b x).2 l' b'
  = zmk_keymap_get_layer_binding_at_idx km l' b'.
Proof.
  intros Hne. unfold zmk_keymap_set_layer_binding_at_idx.
  destruct (zmk_keymap_get_layer_binding_at_idx km l b) as [y|] eqn:Hy; [|done].
  cbn [snd]. apply keymap_get_Some in Hy as (Hl & Hb & row & Hrow & Hy).
  unfold zmk_keymap_get_layer_binding_at_idx.
  destruct (Z.ltb_spec l' 0), (Z.ltb_spec b' 0); cbn; try done.
  destruct (decide (Z.to_nat l' = Z.to_nat l)) as [Heq|Hl'].
  - rewrite Heq, list_lookup_alter_eq, Hrow. cbn.
    apply list_lookup_insert_ne. lia.
  - by rewrite list_lookup_alter_ne.
Qed.

(** ** Layout migration *)

Section Migration.
Context {E : Type} `{!Collaborators E}.
Variable cfg : config.

(** The write-back loop touches layer [l], positions [b0 .. b0 + n - 1]. *)
Lemma write_new_layer_frame new_layer (km : keymap) (l b0 l' b' : Z) :
  l' ≠ l ∨ b' < b0 ∨ b0 + Z.of_nat (length new_layer) <= b' →
  zmk_keymap_get_layer_binding_at_idx (Studio.write_new_layer km l b0 new_layer) l' b'
  = zmk_keymap_get_layer_binding_at_idx km l' b'.
Proof.
  revert km b0. induction new_layer as [|x rest IH]; intros km b0 Hout; [done|].
  cbn [Studio.write_new_layer length] in *.
  rewrite IH by lia. apply keymap_set_frame. lia.
Qed.

Lemma write_new_layer_hit new_layer (km : keymap) (l b0 b' : Z) :
  b0 <= b' < b0 + Z.of_nat (length new_layer) →
  is_Some (zmk_keymap_get_layer_binding_at_idx km l b') →
  zmk_keymap_get_layer_binding_at_idx (Studio.write_new_layer km l b0 new_layer) l b'
  = new_layer !! Z.to_nat (b' - b0).
Proof.
  revert km b0. induction new_layer as [|x rest IH]; intros km b0 Hin Hsome;
    cbn [Studio.write_new_layer length] in *; [lia|].
  destruct (decide (b' = b0)) as [->|Hne].
  - rewrite write_new_layer_frame by lia.
    rewrite keymap_set_hit by done. by rewrite Z.sub_diag.
  - rewrite IH; [| lia | by rewrite keymap_set_frame by lia].
    replace (Z.to_nat (b' - b0)) with (S (Z.to_nat (b' - (b0 + 1)))) by lia.
    done.
Qed.

Lemma migrate_layer_frame entries (km : keymap) (l l' b' : Z) :
  l' ≠ l ∨ b' < 0 ∨ Z.of_nat (length entries) <= b' →
  zmk_keymap_get_layer_binding_at_idx (Studio.migrate_layer entries km l) l' b'
  = zmk_keymap_get_layer_binding_at_idx km l' b'.
Proof.
  intros Hout. unfold Studio.migrate_layer, Studio.build_new_layer.
  apply write_new_layer_frame. rewrite length_fmap. lia.
Qed.

Lemma migrate_layer_hit entries (km : keymap) (l b : Z) old_b :
  0 <= b → entries !! Z.to_nat b = Some old_b →
  is_Some (zmk_keymap_get_layer_binding_at_idx km l b) →
  zmk_keymap_get_layer_binding_at_idx (Studio.migrate_layer entries km l) l b
  = Some (Studio.new_layer_cell km l old_b).
Proof.
  intros Hb Hentry Hsome. unfold Studio.migrate_layer, Studio.build_new_layer.
  rewrite write_new_layer_hit; [| |done].
  - by rewrite Z.sub_0_r, list_lookup_fmap, Hentry.
  - rewrite length_fmap. apply lookup_lt_Some in Hentry. lia.
Qed.

Lemma migrate_fold_frame entries (ls : list Z) (km : keymap) (l' b' : Z) :
  l' ∉ ls ∨ b' < 0 ∨ Z.of_nat (length entries) <= b' →
  zmk_keymap_get_layer_binding_at_idx (foldl (Studio.migrate_layer entries) km ls) l' b'
  = zmk_keymap_get_layer_binding_at_idx km l' b'.
Proof.
  revert km. induction ls as [|l ls IH]; intros km Hout; [done|].
  cbn [foldl]. rewrite IH.
  - apply migrate_layer_frame. rewrite not_elem_of_cons in Hout. tauto.
  - rewrite not_elem_of_cons in Hout. tauto.
Qed.

(** Whether a cell exists is not changed by migrating a layer. *)
Lemma migrate_layer_is_Some entries (km : keymap) (l l' b' : Z) :
  is_Some (zmk_keymap_get_layer_binding_at_idx (Studio.migrate_layer entries km l) l' b')
  ↔ is_Some (zmk_keymap_get_layer_binding_at_idx km l' b').
Proof.
  destruct (decide (l' ≠ l ∨ b' < 0 ∨ Z.of_nat (length entries) <= b')) as [Hout|Hin].
  - by rewrite migrate_layer_frame.
  - assert (l' = l ∧ 0 <= b' < Z.of_nat (length entries)) as [-> Hb] by lia.
    destruct (zmk_keymap_get_layer_binding_at_idx km l b') as [y|] eqn:Hy.
    + destruct (lookup_lt_is_Some_2 entries (Z.to_nat b')) as [old_b Hold]; [lia|].
      rewrite (migrate_layer_hit _ _ _ _ old_b) by (done || lia || by rewrite Hy).
      split; eauto.
    + unfold Studio.migrate_layer.
      assert (Hnone : ∀ nl km' b0, zmk_keymap_get_layer_binding_at_idx km' l b' = None →
                zmk_keymap_get_layer_binding_at_idx (Studio.write_new_layer km' l b0 nl) l b'
                = None).
      { induction nl as [|x nl IHnl]; intros km' b0 Hk; [done|].
        cbn [Studio.write_new_layer]. apply IHnl.
        unfold zmk_keymap_set_layer_binding_at_idx.
        destruct (zmk_keymap_get_layer_binding_at_idx km' l b0) as [z|] eqn:Hz;
          [|done]. cbn [snd].
        destruct (decide (b' = b0)) as [->|Hne]; [congruence|].
        rewrite <- Hk.
        pose proof (keymap_set_frame km' l b0 l b' x (or_intror Hne)) as Hf.
        unfold zmk_keymap_set_layer_binding_at_idx in Hf. by rewrite Hz in Hf. }
      rewrite Hnone by done. done.
Qed.

Lemma migrate_fold_hit entries (ls : list Z) (km : keymap) (l b : Z) old_b :
  NoDup ls → l ∈ ls →
  0 <= b → entries !! Z.to_nat b = Some old_b →
  is_Some (zmk_keymap_get_layer_binding_at_idx km l b) →
  zmk_keymap_get_layer_binding_at_idx (foldl (Studio.migrate_layer entries) km ls) l b
  = Some (Studio.new_layer_cell km l old_b).
Proof.
  revert km. induction ls as [|l0 ls IH]; intros km Hnd Hl Hb Hentry Hsome.
  - by apply elem_of_nil in Hl.
  - apply NoDup_cons in Hnd as [Hl0 Hnd]. cbn [foldl].
    destruct (decide (l = l0)) as [->|Hne].
    + rewrite migrate_fold_frame by auto. by apply migrate_layer_hit.
    + apply elem_of_cons in Hl as [?|Hl]; [done|].
      rewrite IH; [|done..|by apply migrate_layer_is_Some].
      f_equal. unfold Studio.new_layer_cell.
      by rewrite migrate_layer_frame by auto.
Qed.

Lemma layer_indices_NoDup (n : nat) : NoDup (Z.of_nat <$> seq 0 n).
Proof. apply NoDup_fmap; [apply _ | apply NoDup_seq]. Qed.

Lemma layer_indices_elem (n : nat) (l : Z) :
  l ∈ (Z.of_nat <$> seq 0 n) ↔ 0 <= l < Z.of_nat n.
Proof.
  rewrite list_elem_of_fmap. split.
  - intros (i & -> & Hi). apply elem_of_seq in Hi. lia.
  - intros Hl. exists (Z.to_nat l). split; [lia|]. apply elem_of_seq. lia.
Qed.

(** What [migrate_keymap] does to the world: only the keymap changes. *)
Lemma migrate_keymap_world (old : Z) (w : world E) :
  let pm := zmk_physical_layouts_get_position_map
              (to_uint8 old) (zmk_physical_layouts_get_selected (ext w)) (ext w) in
  Studio.migrate_keymap cfg old w
  = (tt, if pm.1 <? 0 then w
         else World (behavior_refs w) (local_ids w)
                    (Studio.migrate_layers cfg (take (Z.to_nat pm.1) pm.2) (zmk_keymap w))
                    (ext w) (notifications w)).
Proof.
  cbn zeta. unfold Studio.migrate_keymap, bind, gets, ret, set_keymap. cbn.
  destruct (zmk_physical_layouts_get_position_map _ _ _) as [layout_size map].
  cbn. by destruct (layout_size <? 0).
Qed.


(** C9.  A position at or above the new layout's key count keeps its
    binding, on every layer. *)
Theorem migrate_keymap_keeps_positions_beyond_layout
    (old : Z) (w : world E) (l b : Z) :
  (zmk_physical_layouts_get_position_map
     (to_uint8 old) (zmk_physical_layouts_get_selected (ext w)) (ext w)).1 <= b →
  zmk_keymap_get_layer_binding_at_idx (zmk_keymap (Studio.migrate_keymap cfg old w).2) l b
  = zmk_keymap_get_layer_binding_at_idx (zmk_keymap w) l b.
Proof.
  intros Hb. rewrite migrate_keymap_world. cbn zeta.
  destruct (zmk_physical_layouts_get_position_map _ _ _) as [layout_size map].
  cbn [fst snd] in *.
  destruct (Z.ltb_spec layout_size 0); [done|]. cbn [zmk_keymap].
  unfold Studio.migrate_layers. apply migrate_fold_frame.
  right; right. rewrite length_take. lia.
Qed.

End Migration.


Lemma migrate_keymap_example :
  zmk_keymap (Studio.migrate_keymap board 0 (board_world board_script)).2
  = [[bC; bD; Studio.zero_binding; Studio.zero_binding; bA; bB];
     [bF; bF; Studio.zero_binding; Studio.zero_binding; bF; bF]].
Proof. reflexivity. Qed.

(** With a four-key new layout, positions 4 and 5 keep [bE] and [bF]. *)
Lemma migrate_keymap_keeps_positions_beyond_layout_witness :
  let w := board_world (Script 0 2 (4, [2; 3; SENTINEL; 0]) 0 0) in
  zmk_keymap_get_layer_binding_at_idx (zmk_keymap (Studio.migrate_keymap board 0 w).2) 0 4
  = Some bE.
Proof.
  exact (migrate_keymap_keeps_positions_beyond_layout board 0
           (board_world (Script 0 2 (4, [2; 3; SENTINEL; 0]) 0 0)) 0 4
           ltac:(apply Z.leb_le; reflexivity)).
Defined.

(** ** The RPC handlers *)

Section Rpc.
Context {E : Type} `{!Collaborators E}.
Variable cfg : config.

Lemma find_name_absent ids (id : Z) :
  (∀ item, item ∈ ids → local_id item ≠ id) →
  Behavior.zmk_behavior_find_behavior_name_from_local_id ids id = None.
Proof.
  intros Habsent.
  destruct (Behavior.zmk_behavior_find_behavior_name_from_local_id ids id) as [nm|] eqn:Hf;
    [|done].
  apply find_name_skips_not_ready in Hf as (item & Hin & _ & Hid & _).
  by destruct (Habsent item Hin).
Qed.

(** C8.  A request whose local id (the [behavior_id] field as the handler
    narrows it to a [zmk_behavior_local_id_t]) is carried by no entry of the
    identity table is answered INVALID_BEHAVIOR, and the world is left as it
    was: no write to the keymap store, no notification, so the dirty flag
    does not change. *)
Theorem set_layer_binding_unknown_local_id
    (set_req : zmk_keymap_SetLayerBindingRequest) (w : world E) :
  (∀ item, item ∈ local_ids w →
           local_id item ≠ to_uint16 (behavior_id (req_binding set_req))) →
  Studio.set_layer_binding cfg set_req w
  = (Response_set_layer_binding SetLayerBinding_INVALID_BEHAVIOR, w)
  ∧ zmk_keymap (Studio.set_layer_binding cfg set_req w).2 = zmk_keymap w
  ∧ notifications (Studio.set_layer_binding cfg set_req w).2 = notifications w
  ∧ ∀ initial,
      change_flag initial (notifications (Studio.set_layer_binding cfg set_req w).2)
      = change_flag initial (notifications w).
Proof.
  intros Habsent.
  assert (Hrun : Studio.set_layer_binding cfg set_req w
                 = (Response_set_layer_binding SetLayerBinding_INVALID_BEHAVIOR, w)).
  { unfold Studio.set_layer_binding, bind, gets. cbn.
    by rewrite (find_name_absent _ _ Habsent). }
  rewrite Hrun. done.
Qed.

(** The two ways the binding validator fails before it looks at the
    parameters. *)
Lemma validate_binding_not_found refs (binding : zmk_behavior_binding) :
  CONFIG_ZMK_BEHAVIOR_METADATA cfg = true →
  Behavior.zmk_behavior_get_binding refs (behavior_dev binding) = None →
  Behavior.zmk_behavior_validate_binding cfg refs binding = - ENODEV.
Proof.
  intros Hcfg Hnone. unfold Behavior.zmk_behavior_validate_binding.
  by rewrite Hcfg, Hnone.
Qed.

Lemma validate_binding_metadata_fails refs (binding : zmk_behavior_binding) behavior :
  CONFIG_ZMK_BEHAVIOR_METADATA cfg = true →
  Behavior.zmk_behavior_get_binding refs (behavior_dev binding) = Some behavior →
  (get_parameter_metadata behavior).1 < 0 →
  Behavior.zmk_behavior_validate_binding cfg refs binding
  = (get_parameter_metadata behavior).1.
Proof.
  intros Hcfg Hsome Hneg. unfold Behavior.zmk_behavior_validate_binding.
  rewrite Hcfg, Hsome. destruct (get_parameter_metadata behavior) as [r md].
  cbn [fst] in *. by destruct (Z.ltb_spec r 0); [|lia].
Qed.

(** C10.  Once the local id resolves to a name, every failure of
    [zmk_behavior_validate_binding] is answered INVALID_PARAMETERS and
    leaves the world as it was: a negative code from the parameter check,
    the registry not finding the name, and the metadata query failing alike. *)
Theorem set_layer_binding_validation_failure
    (set_req : zmk_keymap_SetLayerBindingRequest) (w : world E) (behavior_name : cstr) :
  Behavior.zmk_behavior_find_behavior_name_from_local_id
    (local_ids w) (to_uint16 (behavior_id (req_binding set_req)))
  = Some behavior_name →
  let binding := Binding (Some behavior_name)
                         (bb_param1 (req_binding set_req))
                         (bb_param2 (req_binding set_req)) in
  Behavior.zmk_behavior_validate_binding cfg (behavior_refs w) binding < 0
  ∨ (CONFIG_ZMK_BEHAVIOR_METADATA cfg = true
     ∧ Behavior.zmk_behavior_get_binding (behavior_refs w) (Some behavior_name) = None)
  ∨ (CONFIG_ZMK_BEHAVIOR_METADATA cfg = true
     ∧ ∃ behavior,
         Behavior.zmk_behavior_get_binding (behavior_refs w) (Some behavior_name)
         = Some behavior
         ∧ (get_parameter_metadata behavior).1 < 0) →
  Studio.set_layer_binding cfg set_req w
  = (Response_set_layer_binding SetLayerBinding_INVALID_PARAMETERS, w).
Proof.
  intros Hname binding Hfail.
  assert (Hneg : Behavior.zmk_behavior_validate_binding cfg (behavior_refs w) binding < 0).
  { destruct Hfail as [Hneg | [[Hcfg Hnone] | (Hcfg & behavior & Hsome & Hmd)]].
    - done.
    - rewrite validate_binding_not_found by done. unfold ENODEV. lia.
    - by rewrite (validate_binding_metadata_fails _ _ behavior). }
  unfold Studio.set_layer_binding, bind, gets. cbn. rewrite Hname.
  fold binding. by destruct (Z.ltb_spec
    (Behavior.zmk_behavior_validate_binding cfg (behavior_refs w) binding) 0); [|lia].
Qed.

(** C5.  [save_changes] persists the layout selection first and the keymap
    second, the keymap on the state the first call left and only if the
    first call succeeded.  If either call fails the answer is the generic
    error, no notification is raised and the dirty flag keeps its value;
    only when both succeed is "not dirty" notified and the flag cleared.
    The keymap itself is never changed. *)
Theorem save_changes_outcomes (w : world E) :
  let layout := zmk_physical_layouts_save_selected (ext w) in
  let stored := zmk_keymap_save_changes (zmk_keymap w) layout.2 in
  let out := Studio.save_changes w in
  zmk_keymap out.2 = zmk_keymap w
  ∧ (layout.1 < 0 →
       out = (ZMK_RPC_SIMPLE_ERR GENERIC, with_ext w layout.2))
  ∧ (0 <= layout.1 → stored.1 < 0 →
       out = (ZMK_RPC_SIMPLE_ERR GENERIC, with_ext w stored.2))
  ∧ (layout.1 < 0 ∨ stored.1 < 0 →
       out.1 = ZMK_RPC_SIMPLE_ERR GENERIC
       ∧ notifications out.2 = notifications w
       ∧ ∀ initial, change_flag initial (notifications out.2)
                    = change_flag initial (notifications w))
  ∧ (0 <= layout.1 → 0 <= stored.1 →
       out.1 = Response_save_changes true
       ∧ ext out.2 = stored.2
       ∧ notifications out.2 = notifications w ++ [unsaved_changes_status_changed false]
       ∧ ∀ initial, change_flag initial (notifications out.2) = false).
Proof.
  cbn zeta. unfold Studio.save_changes, bind, gets, call_ext, ret,
    raise_zmk_studio_rpc_notification, with_ext, change_flag.
  destruct (zmk_physical_layouts_save_selected (ext w)) as [r1 e1]. cbn.
  destruct (Z.ltb_spec r1 0) as [H1|H1]; cbn.
  - split_and!; try done; intros; lia.
  - destruct (zmk_keymap_save_changes (zmk_keymap w) e1) as [r2 e2]. cbn.
    destruct (Z.ltb_spec r2 0) as [H2|H2]; cbn.
    + split_and!; try done; intros; lia.
    + split_and!; try done; try (intros; lia); try (intros [?|?]; lia).
      intros _ _. split_and!; try done. intros initial. by rewrite last_snoc.
Qed.

(** When the requested layout is the selected one, nothing happens. *)
Lemma set_active_physical_layout_same (req : Z) (w : world E) :
  zmk_physical_layouts_get_selected (ext w) = to_uint8 req →
  Studio.set_active_physical_layout cfg req w
  = (Response_set_active_physical_layout SetActivePhysicalLayout_ok, w).
Proof.
  intros Hsame. unfold Studio.set_active_physical_layout, bind, gets. cbn.
  by rewrite Hsame, Z.eqb_refl.
Qed.

(** When the selection fails, the error result is returned, and the
    notification is raised all the same: the failing branch falls through
    to the [raise] that follows the [if]. *)
Lemma set_active_physical_layout_select_fails (req : Z) (w : world E) :
  zmk_physical_layouts_get_selected (ext w) ≠ to_uint8 req →
  (zmk_physical_layouts_select (to_uint8 req) (ext w)).1 < 0 →
  Studio.set_active_physical_layout cfg req w
  = (Response_set_active_physical_layout
       (SetActivePhysicalLayout_err SetActivePhysicalLayout_GENERIC),
     World (behavior_refs w) (local_ids w) (zmk_keymap w)
           (zmk_physical_layouts_select (to_uint8 req) (ext w)).2
           (notifications w ++ [unsaved_changes_status_changed true])).
Proof.
  intros Hne Hfail.
  unfold Studio.set_active_physical_layout, bind, gets, call_ext, ret,
    raise_zmk_studio_rpc_notification. cbn.
  apply Z.eqb_neq in Hne. rewrite Hne.
  destruct (zmk_physical_layouts_select (to_uint8 req) (ext w)) as [r e]. cbn in *.
  by destruct (Z.leb_spec 0 r); [lia|].
Qed.

End Rpc.

Lemma set_layer_binding_unknown_local_id_witness :
  Studio.set_layer_binding board
    (SetLayerBindingRequest 0 0 (BehaviorBinding 9 0 0)) (board_world board_script)
  = (Response_set_layer_binding SetLayerBinding_INVALID_BEHAVIOR, board_world board_script).
Proof.
  refine (proj1 (set_layer_binding_unknown_local_id board
            (SetLayerBindingRequest 0 0 (BehaviorBinding 9 0 0))
            (board_world board_script) _)).
  intros item Hin. cbn in Hin.
  repeat (apply elem_of_cons in Hin as [->|Hin]; [discriminate|]).
  by apply elem_of_nil in Hin.
Defined.

(** Local id 5 is the behaviour whose metadata query fails. *)
Lemma set_layer_binding_validation_failure_witness :
  Studio.set_layer_binding board
    (SetLayerBindingRequest 0 0 (BehaviorBinding 5 0 0)) (board_world board_script)
  = (Response_set_layer_binding SetLayerBinding_INVALID_PARAMETERS, board_world board_script).
Proof.
  refine (set_layer_binding_validation_failure board
            (SetLayerBindingRequest 0 0 (BehaviorBinding 5 0 0))
            (board_world board_script) (name dev_nometa) eq_refl _).
  right; right. split; [reflexivity|].
  exists dev_nometa. split; [reflexivity | by apply Z.ltb_lt].
Defined.

(** The layout selection is persisted, the keymap is not. *)
Lemma save_changes_outcomes_witness :
  let w := board_world (Script 0 2 (6, []) 0 (- 5)) in
  (Studio.save_changes w).1 = ZMK_RPC_SIMPLE_ERR GENERIC
  ∧ notifications (Studio.save_changes w).2 = notifications w
  ∧ change_flag true (notifications (Studio.save_changes w).2) = true.
Proof.
  destruct (save_changes_outcomes (board_world (Script 0 2 (6, []) 0 (- 5))))
    as (_ & _ & _ & Hfail & _).
  destruct Hfail as (Hresp & Hnotes & Hflag); [right; by apply Z.ltb_lt|].
  cbn zeta. split_and!; [exact Hresp | exact Hnotes | exact (Hflag true)].
Defined.

(** C4.  Requesting layout 5 on a board with two layouts, layout 0 selected:
    the selection fails and the structured error is returned, yet the dirty
    notification is raised and the flag goes from clean to dirty.  The
    design wants the notification and the flag change only when the
    selection succeeded.  (Requesting the selected layout is the no-op the
    design describes.) *)
Theorem set_active_physical_layout_notifies_on_failed_selection :
  let w := board_world board_script in
  let out := Studio.set_active_physical_layout board 5 w in
  (zmk_physical_layouts_select 5 (ext w)).1 = - EINVAL
  ∧ out.1 = Response_set_active_physical_layout
              (SetActivePhysicalLayout_err SetActivePhysicalLayout_GENERIC)
  ∧ zmk_keymap out.2 = zmk_keymap w
  ∧ notifications w = []
  ∧ notifications out.2 = [unsaved_changes_status_changed true]
  ∧ change_flag false (notifications w) = false
  ∧ change_flag false (notifications out.2) = true
  ∧ Studio.set_active_physical_layout board 0 w
    = (Response_set_active_physical_layout SetActivePhysicalLayout_ok, w).
Proof. cbn zeta. split_and!; reflexivity. Qed.

(** * Further properties of [behavior.c] *)

(** ** The registry lookup *)

Lemma find_Some_elem {A} (P : A → bool) (l : list A) (x : A) :
  find P l = Some x → x ∈ l ∧ P x = true.
Proof. intros Hf. apply find_some in Hf as [Hin HP]. by rewrite list_elem_of_In. Qed.

Lemma find_is_Some {A} (P : A → bool) (l : list A) (x : A) :
  x ∈ l → P x = true → is_Some (find P l).
Proof.
  intros Hin HP. destruct (find P l) as [y|] eqn:Hf; [by eexists|].
  apply list_elem_of_In in Hin. by rewrite (find_none _ _ Hf x Hin) in HP.
Qed.

Lemma get_binding_Some_inv (refs : list device) (nm : option cstr) (d : device) :
  Behavior.z_impl_behavior_get_binding refs nm = Some d →
  ∃ n, nm = Some n ∧ c_chars n ≠ ""
       ∧ d ∈ refs ∧ is_ready d = true
       ∧ (c_ptr (name d) = c_ptr n ∨ c_chars (name d) = c_chars n).
Proof.
  unfold Behavior.z_impl_behavior_get_binding. destruct nm as [n|]; [|done].
  case_bool_decide as Hempty; [done|]. intros Hfound. exists n.
  destruct (find _ refs) as [d'|] eqn:Hptr.
  - injection Hfound as ->. apply find_Some_elem in Hptr as [Hin Hp].
    apply andb_true_iff in Hp as [Hr Hp]. apply Z.eqb_eq in Hp. auto 10.
  - apply find_Some_elem in Hfound as [Hin Hp].
    apply andb_true_iff in Hp as [Hr Hp]. apply bool_decide_eq_true in Hp. auto 10.
Qed.

(** X1.  What [z_impl_behavior_get_binding] returns is a registered device
    that is ready and whose name is the requested one, by pointer or by
    contents; and the requested name is neither [NULL] nor empty. *)
Theorem get_binding_sound (refs : list device) (nm : option cstr) (d : device) :
  Behavior.z_impl_behavior_get_binding refs nm = Some d →
  ∃ n, nm = Some n ∧ c_chars n ≠ ""
       ∧ d ∈ refs ∧ is_ready d = true
       ∧ (c_ptr (name d) = c_ptr n ∨ c_chars (name d) = c_chars n).
Proof. apply get_binding_Some_inv. Qed.

Lemma get_binding_sound_witness :
  ∃ n, Some (CStr 0 "momentary_layer") = Some n ∧ c_chars n ≠ ""
       ∧ dev_mo ∈ [dev_kp; dev_mo; dev_down] ∧ is_ready dev_mo = true
       ∧ (c_ptr (name dev_mo) = c_ptr n ∨ c_chars (name dev_mo) = c_chars n).
Proof.
  exact (get_binding_sound [dev_kp; dev_mo; dev_down]
           (Some (CStr 0 "momentary_layer")) dev_mo eq_refl).
Defined.

Lemma get_binding_is_Some (refs : list device) (n : cstr) (d : device) :
  d ∈ refs → is_ready d = true →
  c_chars (name d) = c_chars n → c_chars n ≠ "" →
  is_Some (Behavior.z_impl_behavior_get_binding refs (Some n)).
Proof.
  intros Hin Hready Hname Hne. unfold Behavior.z_impl_behavior_get_binding.
  rewrite bool_decide_eq_false_2 by done.
  destruct (find _ refs) as [d'|]; [by eexists|].
  apply (find_is_Some _ _ d Hin). rewrite Hready. cbn.
  by apply bool_decide_eq_true.
Qed.

(** X2.  Every ready device is found under its name: a lookup with the
    contents of the name of a ready registered device succeeds, whatever
    pointer the caller holds, unless the name is empty. *)
Theorem get_binding_complete (refs : list device) (n : cstr) (d : device) :
  d ∈ refs → is_ready d = true →
  c_chars (name d) = c_chars n → c_chars n ≠ "" →
  is_Some (Behavior.z_impl_behavior_get_binding refs (Some n)).
Proof. apply get_binding_is_Some. Qed.

Lemma get_binding_complete_witness :
  is_Some (Behavior.z_impl_behavior_get_binding
             [dev_kp; dev_mo; dev_down] (Some (CStr 0 "momentary_layer"))).
Proof.
  refine (get_binding_complete [dev_kp; dev_mo; dev_down]
            (CStr 0 "momentary_layer") dev_mo _ eq_refl eq_refl _).
  - apply elem_of_cons. right. apply elem_of_cons. by left.
  - discriminate.
Defined.

Lemma NoDup_fmap_elem_inj {A B} (f : A → B) (l : list A) (x y : A) :
  NoDup (f <$> l) → x ∈ l → y ∈ l → f x = f y → x = y.
Proof.
  induction l as [|a l IH]; intros Hnd Hx Hy Hf; [by apply elem_of_nil in Hx|].
  rewrite fmap_cons in Hnd. apply NoDup_cons in Hnd as [Ha Hnd].
  apply elem_of_cons in Hx as [->|Hx]; apply elem_of_cons in Hy as [->|Hy]; auto.
  - destruct Ha. rewrite Hf. by apply list_elem_of_fmap_2.
  - destruct Ha. rewrite <- Hf. by apply list_elem_of_fmap_2.
Qed.

(** X3.  When the ready devices have pairwise different names, and a
    pointer equal to a registered name points at the same characters, the
    lookup of the name of a ready registered device returns that device. *)
Theorem get_binding_unique_names (refs : list device) (n : cstr) (d : device) :
  NoDup (ready_names refs) →
  (∀ d', d' ∈ refs → c_ptr (name d') = c_ptr n → c_chars (name d') = c_chars n) →
  d ∈ refs → is_ready d = true →
  c_chars (name d) = c_chars n → c_chars n ≠ "" →
  Behavior.z_impl_behavior_get_binding refs (Some n) = Some d.
Proof.
  intros Hnd Hptr Hin Hready Hname Hne.
  destruct (get_binding_is_Some refs n d Hin Hready Hname Hne) as [d' Hd'].
  rewrite Hd'. f_equal.
  apply get_binding_Some_inv in Hd' as (n' & [= <-] & _ & Hin' & Hready' & Hsame).
  assert (Hchars : c_chars (name d') = c_chars (name d)).
  { destruct Hsame as [Hp|Hc]; [rewrite (Hptr d' Hin' Hp)|rewrite Hc]; done. }
  apply (NoDup_fmap_elem_inj (λ d, c_chars (name d)) _ d' d Hnd);
    [by apply list_elem_of_filter..|done].
Qed.

Lemma get_binding_unique_names_witness :
  Behavior.z_impl_behavior_get_binding
    [dev_kp; dev_mo; dev_down] (Some (CStr 0 "momentary_layer")) = Some dev_mo.
Proof.
  refine (get_binding_unique_names [dev_kp; dev_mo; dev_down]
            (CStr 0 "momentary_layer") dev_mo _ _ _ eq_refl eq_refl _).
  - refine (bool_decide_unpack _ _). by vm_compute.
  - intros d' Hd' Hp.
    repeat (apply elem_of_cons in Hd' as [->|Hd']; [discriminate Hp|]).
    by apply elem_of_nil in Hd'.
  - apply elem_of_cons. right. apply elem_of_cons. by left.
  - discriminate.
Defined.

(** ** The duplicate-name check *)

(** X4.  [check_behavior_names] logs nothing exactly when the registered
    names are pairwise different (ready or not), and always returns 0. *)
Theorem check_behavior_names_silent_iff_unique (refs : list device) :
  (Behavior.check_behavior_names refs).1 = 0
  ∧ ((Behavior.check_behavior_names refs).2 = []
     ↔ NoDup ((λ d, c_chars (name d)) <$> refs)).
Proof.
  split; [done|]. cbn [Behavior.check_behavior_names snd].
  induction refs as [|current others IH]; cbn [Behavior.duplicate_names_logged].
  - split; [constructor | done].
  - rewrite fmap_cons, NoDup_cons, <- IH. split.
    + intros Happ. apply app_eq_nil in Happ as [Hdup Hrest]. split; [|done].
      apply fmap_nil_inv in Hdup. intros Hin.
      apply list_elem_of_fmap in Hin as (other & Hname & Hother).
      assert (Hf : other ∈ filter (λ other, c_chars (name current) = c_chars (name other))
                      others) by by apply list_elem_of_filter.
      rewrite Hdup in Hf. by apply elem_of_nil in Hf.
    + intros [Hfresh Hrest]. rewrite Hrest, app_nil_r.
      destruct (filter _ others) as [|other rest] eqn:Hf; [done|].
      assert (Hin : other ∈ filter (λ other, c_chars (name current) = c_chars (name other))
                       others) by (rewrite Hf; left).
      apply list_elem_of_filter in Hin as [Hname Hin]. destruct Hfresh.
      rewrite Hname. by apply (list_elem_of_fmap_2 (λ d, c_chars (name d))).
Qed.

(** ** Parameter validation *)

Lemma found_match_iff (cfg : config) specs (param : Z) :
  Behavior.found_match cfg specs param = true
  ↔ ∃ spec, spec ∈ specs ∧ Behavior.value_meta_matches cfg spec param = true.
Proof.
  induction specs as [|s specs IH]; cbn [Behavior.found_match].
  - split; [done | intros (? & Hin & _); by apply elem_of_nil in Hin].
  - destruct (Behavior.value_meta_matches cfg s param) eqn:Hs.
    + split; [|done]. intros _. exists s. split; [left | done].
    + rewrite IH. split.
      * intros (spec & Hin & Hm). exists spec. split; [by right | done].
      * intros (spec & Hin & Hm). apply elem_of_cons in Hin as [->|Hin]; [congruence|].
        by exists spec.
Qed.

Lemma sets_loop_iff (cfg : config) sets (p1 p2 : Z) :
  (Behavior.sets_loop cfg sets p1 p2 = 0
   ↔ ∃ set, set ∈ sets ∧ Behavior.set_accepts cfg set p1 p2 = true)
  ∧ (Behavior.sets_loop cfg sets p1 p2 = 0
     ∨ Behavior.sets_loop cfg sets p1 p2 = - EINVAL).
Proof.
  induction sets as [|s sets [IH IHc]]; cbn [Behavior.sets_loop].
  - split; [|by right]. split; [done | intros (? & Hin & _); by apply elem_of_nil in Hin].
  - destruct (Behavior.set_accepts cfg s p1 p2) eqn:Hs.
    + split; [|by left]. split; [|done]. intros _. exists s. split; [left | done].
    + split; [|done]. rewrite IH. split.
      * intros (set & Hin & Hm). exists set. split; [by right | done].
      * intros (set & Hin & Hm). apply elem_of_cons in Hin as [->|Hin]; [congruence|].
        by exists set.
Qed.

(** X5.  [zmk_behavior_validate_param_values] has three outcomes: [-ENODEV]
    exactly for an empty list of value descriptions, 0 exactly when some
    description of the list matches the value, and [-ENOTSUP] otherwise. *)
Theorem validate_param_values_outcomes
    (cfg : config) (specs : list behavior_parameter_value_metadata) (param : Z) :
  let r := Behavior.zmk_behavior_validate_param_values cfg specs param in
  (r = 0 ∨ r = - ENODEV ∨ r = - ENOTSUP)
  ∧ (r = - ENODEV ↔ specs = [])
  ∧ (r = 0 ↔ ∃ spec, spec ∈ specs ∧ Behavior.value_meta_matches cfg spec param = true).
Proof.
  cbn zeta. rewrite <- found_match_iff. destruct specs as [|s specs]; cbn -[Behavior.found_match].
  - split_and!; [auto | done | done].
  - destruct (Behavior.found_match cfg (s :: specs) param);
      split_and!; auto; split; done.
Qed.

(** X6.  Validation does not depend on the order in which a behaviour lists
    its value descriptions or its parameter sets. *)
Theorem validation_ignores_order (cfg : config) :
  (∀ specs specs' param, specs ≡ₚ specs' →
     Behavior.zmk_behavior_validate_param_values cfg specs param
     = Behavior.zmk_behavior_validate_param_values cfg specs' param)
  ∧ (∀ sets sets' p1 p2, sets ≡ₚ sets' →
     Behavior.zmk_behavior_validate_params_metadata cfg (Some sets) p1 p2
     = Behavior.zmk_behavior_validate_params_metadata cfg (Some sets') p1 p2).
Proof.
  split.
  - intros specs specs' param Hperm.
    assert (Hfm : Behavior.found_match cfg specs param
                  = Behavior.found_match cfg specs' param).
    { apply eq_true_iff_eq. rewrite !found_match_iff.
      by setoid_rewrite Hperm. }
    destruct specs as [|s specs].
    + by apply Permutation_nil_l in Hperm as ->.
    + destruct specs' as [|s' specs']; [by apply Permutation_nil_r in Hperm|].
      unfold Behavior.zmk_behavior_validate_param_values. by rewrite Hfm.
  - intros sets sets' p1 p2 Hperm.
    assert (Hloop : Behavior.sets_loop cfg sets p1 p2 = Behavior.sets_loop cfg sets' p1 p2).
    { destruct (sets_loop_iff cfg sets p1 p2) as [H1 [H1c|H1c]],
               (sets_loop_iff cfg sets' p1 p2) as [H2 [H2c|H2c]]; try congruence.
      - apply H1 in H1c. setoid_rewrite Hperm in H1c. apply H2 in H1c.
        by rewrite H1c in H2c.
      - apply H2 in H2c. setoid_rewrite <- Hperm in H2c. apply H1 in H2c.
        by rewrite H2c in H1c. }
    destruct sets as [|s sets].
    + by apply Permutation_nil_l in Hperm as ->.
    + destruct sets' as [|s' sets']; [by apply Permutation_nil_r in Hperm|].
      exact Hloop.
Qed.

(** X7.  Declaring more sets never rejects what was accepted, as long as at
    least one set was declared before.  (With no set declared only (0, 0) is
    accepted, and a first set may well reject that.) *)
Theorem more_sets_accept_more
    (cfg : config) (sets sets' : list behavior_parameter_metadata_set) (p1 p2 : Z) :
  sets ≠ [] → sets ⊆ sets' →
  Behavior.zmk_behavior_validate_params_metadata cfg (Some sets) p1 p2 = 0 →
  Behavior.zmk_behavior_validate_params_metadata cfg (Some sets') p1 p2 = 0.
Proof.
  intros Hne Hsub Hok.
  destruct sets as [|s sets]; [done|].
  destruct sets' as [|s' sets'].
  { exfalso. eapply elem_of_nil, Hsub. left. }
  unfold Behavior.zmk_behavior_validate_params_metadata in *.
  apply sets_loop_iff in Hok as (set & Hin & Hacc).
  apply sets_loop_iff. exists set. split; [by apply Hsub | done].
Qed.

Lemma more_sets_accept_more_witness :
  Behavior.zmk_behavior_validate_params_metadata board
    (Some [MetadataSet [BEHAVIOR_PARAMETER_VALUE_TYPE_RANGE 1 9] [];
           MetadataSet [BEHAVIOR_PARAMETER_VALUE_TYPE_NIL] []]) 0 0 = 0
  ∧ Behavior.zmk_behavior_validate_params_metadata board (Some []) 0 0 = 0
  ∧ Behavior.zmk_behavior_validate_params_metadata board
      (Some [MetadataSet [BEHAVIOR_PARAMETER_VALUE_TYPE_RANGE 1 9] []]) 0 0 = - EINVAL.
Proof.
  split; [|split; reflexivity].
  refine (more_sets_accept_more board
            [MetadataSet [BEHAVIOR_PARAMETER_VALUE_TYPE_NIL] []]
            [MetadataSet [BEHAVIOR_PARAMETER_VALUE_TYPE_RANGE 1 9] [];
             MetadataSet [BEHAVIOR_PARAMETER_VALUE_TYPE_NIL] []] 0 0 _ _ eq_refl).
  - discriminate.
  - intros set Hin. apply elem_of_cons in Hin as [->|Hin].
    + right. left.
    + by apply elem_of_nil in Hin.
Defined.

Lemma validate_params_metadata_codes (cfg : config) md (p1 p2 : Z) :
  Behavior.zmk_behavior_validate_params_metadata cfg md p1 p2 = 0
  ∨ Behavior.zmk_behavior_validate_params_metadata cfg md p1 p2 = - ENODEV
  ∨ Behavior.zmk_behavior_validate_params_metadata cfg md p1 p2 = - EINVAL.
Proof.
  assert (Hnone : (if (p1 =? 0) && (p2 =? 0) then 0 else - ENODEV) = 0
                  ∨ (if (p1 =? 0) && (p2 =? 0) then 0 else - ENODEV) = - ENODEV
                  ∨ (if (p1 =? 0) && (p2 =? 0) then 0 else - ENODEV) = - EINVAL).
  { destruct ((p1 =? 0) && (p2 =? 0)); auto. }
  destruct md as [[|s sets]|]; try exact Hnone.
  unfold Behavior.zmk_behavior_validate_params_metadata.
  destruct (sets_loop_iff cfg (s :: sets) p1 p2) as [_ [Hc | Hc]]; rewrite Hc; auto.
Qed.

(** X8.  [zmk_behavior_validate_binding] never returns a positive code.
    With metadata support built in, it returns 0 only for a name that the
    registry resolves to a ready device whose metadata query did not fail
    and whose metadata accept the two parameters. *)
Theorem validate_binding_success
    (cfg : config) (refs : list device) (binding : zmk_behavior_binding) :
  Behavior.zmk_behavior_validate_binding cfg refs binding <= 0
  ∧ (CONFIG_ZMK_BEHAVIOR_METADATA cfg = true →
     Behavior.zmk_behavior_validate_binding cfg refs binding = 0 →
     ∃ d, Behavior.zmk_behavior_get_binding refs (behavior_dev binding) = Some d
          ∧ d ∈ refs ∧ is_ready d = true
          ∧ 0 <= (get_parameter_metadata d).1
          ∧ Behavior.zmk_behavior_validate_params_metadata cfg
              (Some (get_parameter_metadata d).2) (param1 binding) (param2 binding) = 0).
Proof.
  assert (Hvpm : ∀ md, Behavior.zmk_behavior_validate_params_metadata cfg md
                         (param1 binding) (param2 binding) <= 0).
  { intros md.
    destruct (validate_params_metadata_codes cfg md (param1 binding) (param2 binding))
      as [Hc | [Hc | Hc]]; rewrite Hc; unfold ENODEV, EINVAL; lia. }
  unfold Behavior.zmk_behavior_validate_binding.
  destruct (CONFIG_ZMK_BEHAVIOR_METADATA cfg); [|split; [lia|done]].
  destruct (Behavior.zmk_behavior_get_binding refs (behavior_dev binding)) as [d|] eqn:Hd.
  - destruct (get_parameter_metadata d) as [r md] eqn:Hmd. cbn [fst snd].
    destruct (Z.ltb_spec r 0).
    + split; [lia|]. intros _ ->. lia.
    + split; [apply Hvpm|]. intros _ Hok. exists d.
      apply get_binding_Some_inv in Hd as (n & _ & _ & Hin & Hready & _).
      rewrite Hmd. cbn [fst snd]. split_and!; done.
  - split; [unfold ENODEV; lia|]. intros _. unfold ENODEV. lia.
Qed.

Lemma validate_binding_success_witness :
  ∃ d, Behavior.zmk_behavior_get_binding [dev_kp; dev_mo; dev_down] (behavior_dev bE) = Some d
       ∧ d ∈ [dev_kp; dev_mo; dev_down] ∧ is_ready d = true
       ∧ 0 <= (get_parameter_metadata d).1
       ∧ Behavior.zmk_behavior_validate_params_metadata board
           (Some (get_parameter_metadata d).2) (param1 bE) (param2 bE) = 0.
Proof.
  exact (proj2 (validate_binding_success board [dev_kp; dev_mo; dev_down] bE)
           eq_refl eq_refl).
Defined.

(** X9.  A behaviour that reports the empty metadata of
    [zmk_behavior_get_empty_param_metadata] can only be bound with both
    parameters 0; any other parameters are refused with [-ENODEV]. *)
Theorem empty_metadata_accepts_only_zero
    (cfg : config) (refs : list device) (binding : zmk_behavior_binding) (d : device) :
  CONFIG_ZMK_BEHAVIOR_METADATA cfg = true →
  Behavior.zmk_behavior_get_binding refs (behavior_dev binding) = Some d →
  get_parameter_metadata d = Behavior.zmk_behavior_get_empty_param_metadata →
  (Behavior.zmk_behavior_validate_binding cfg refs binding = 0
   ↔ param1 binding = 0 ∧ param2 binding = 0)
  ∧ (Behavior.zmk_behavior_validate_binding cfg refs binding = 0
     ∨ Behavior.zmk_behavior_validate_binding cfg refs binding = - ENODEV).
Proof.
  intros Hcfg Hd Hmd. unfold Behavior.zmk_behavior_validate_binding.
  rewrite Hcfg, Hd, Hmd. cbn.
  destruct (Z.eqb_spec (param1 binding) 0), (Z.eqb_spec (param2 binding) 0); cbn;
    (split; [split; [intros; try done; try lia | intros []; done] | auto]).
Qed.

Lemma empty_metadata_accepts_only_zero_witness :
  (Behavior.zmk_behavior_validate_binding board [dev_kp; dev_trans] bF = 0
   ↔ param1 bF = 0 ∧ param2 bF = 0)
  ∧ (Behavior.zmk_behavior_validate_binding board [dev_kp; dev_trans] bF = 0
     ∨ Behavior.zmk_behavior_validate_binding board [dev_kp; dev_trans] bF = - ENODEV).
Proof.
  exact (empty_metadata_accepts_only_zero board [dev_kp; dev_trans] bF dev_trans
           eq_refl eq_refl eq_refl).
Defined.

(** ** Local ids: lookups *)

Lemma find_first_ready_elem (P : zmk_behavior_local_id_map → bool) ids item :
  find (λ item, is_ready (lid_device item) && P item) ids = Some item →
  item ∈ filter (λ item, is_ready (lid_device item) = true) ids ∧ P item = true.
Proof.
  intros Hf. apply find_Some_elem in Hf as [Hin Hp].
  apply andb_true_iff in Hp as [Hr Hp]. split; [|done].
  by apply list_elem_of_filter.
Qed.

Lemma find_name_of_get_local_id
    (ids : list zmk_behavior_local_id_map) (item : zmk_behavior_local_id_map) :
  NoDup (ready_ids ids) →
  item ∈ ids → is_ready (lid_device item) = true →
  ∃ nm, Behavior.zmk_behavior_find_behavior_name_from_local_id ids
          (Behavior.zmk_behavior_get_local_id ids (Some (name (lid_device item))))
        = Some nm
        ∧ c_chars nm = c_chars (name (lid_device item)).
Proof.
  intros Hnd Hin Hready.
  unfold Behavior.zmk_behavior_get_local_id.
  destruct (find _ ids) as [it0|] eqn:H0.
  - apply find_first_ready_elem in H0 as [Hin0 Hname0].
    apply bool_decide_eq_true in Hname0.
    unfold Behavior.zmk_behavior_find_behavior_name_from_local_id.
    destruct (find _ ids) as [it1|] eqn:H1.
    + apply find_first_ready_elem in H1 as [Hin1 Hid1]. apply Z.eqb_eq in Hid1.
      assert (it1 = it0) as -> by by apply (NoDup_fmap_elem_inj local_id _ _ _ Hnd).
      by eexists.
    + apply list_elem_of_filter in Hin0 as [Hr0 Hin0].
      destruct (find_is_Some
                  (λ it, is_ready (lid_device it) && (local_id it =? local_id it0))
                  ids it0 Hin0) as [x Hx]; [by rewrite Hr0, Z.eqb_refl|].
      congruence.
  - destruct (find_is_Some
                (λ it, is_ready (lid_device it)
                       && Behavior.strcmp_eq0 (name (lid_device it)) (name (lid_device item)))
                ids item Hin) as [x Hx]; [|congruence].
    rewrite Hready. cbn. by apply bool_decide_eq_true.
Qed.

(** X10.  Name to id and back.  When the ready entries of the identity
    table carry pairwise different ids, the id that [zmk_behavior_get_local_id]
    gives for the name of a ready entry leads
    [zmk_behavior_find_behavior_name_from_local_id] back to a name with the
    same characters. *)
Theorem local_id_of_name_finds_name
    (ids : list zmk_behavior_local_id_map) (item : zmk_behavior_local_id_map) :
  NoDup (ready_ids ids) →
  item ∈ ids → is_ready (lid_device item) = true →
  ∃ nm, Behavior.zmk_behavior_find_behavior_name_from_local_id ids
          (Behavior.zmk_behavior_get_local_id ids (Some (name (lid_device item))))
        = Some nm
        ∧ c_chars nm = c_chars (name (lid_device item)).
Proof. apply find_name_of_get_local_id. Qed.

Lemma local_id_of_name_finds_name_witness :
  ∃ nm, Behavior.zmk_behavior_find_behavior_name_from_local_id
          (local_ids (board_world board_script))
          (Behavior.zmk_behavior_get_local_id (local_ids (board_world board_script))
             (Some (name dev_mo)))
        = Some nm
        ∧ c_chars nm = c_chars (name dev_mo).
Proof.
  refine (local_id_of_name_finds_name (local_ids (board_world board_script))
            (LocalIdMap dev_mo 2) _ _ eq_refl).
  - refine (bool_decide_unpack _ _). by vm_compute.
  - apply elem_of_cons. right. apply elem_of_cons. by left.
Defined.

Lemma get_local_id_of_found_name
    (ids : list zmk_behavior_local_id_map) (id : Z) (nm : cstr) :
  NoDup (ready_id_names ids) →
  Behavior.zmk_behavior_find_behavior_name_from_local_id ids id = Some nm →
  Behavior.zmk_behavior_get_local_id ids (Some nm) = id.
Proof.
  intros Hnd Hfind.
  unfold Behavior.zmk_behavior_find_behavior_name_from_local_id in Hfind.
  destruct (find _ ids) as [it0|] eqn:H0; [|done]. injection Hfind as <-.
  apply find_first_ready_elem in H0 as [Hin0 Hid0]. apply Z.eqb_eq in Hid0.
  unfold Behavior.zmk_behavior_get_local_id.
  destruct (find _ ids) as [it1|] eqn:H1.
  - apply find_first_ready_elem in H1 as [Hin1 Hname1].
    apply bool_decide_eq_true in Hname1.
    by assert (it1 = it0) as ->
      by by apply (NoDup_fmap_elem_inj (λ it, c_chars (name (lid_device it))) _ _ _ Hnd).
  - apply list_elem_of_filter in Hin0 as [Hr0 Hin0].
    destruct (find_is_Some
                (λ it, is_ready (lid_device it)
                       && Behavior.strcmp_eq0 (name (lid_device it)) (name (lid_device it0)))
                ids it0 Hin0) as [x Hx]; [|congruence].
    rewrite Hr0. cbn. by apply bool_decide_eq_true.
Qed.

(** X11.  Id to name and back.  When the ready entries carry pairwise
    different names, the name found for an id has that id. *)
Theorem name_of_local_id_has_id
    (ids : list zmk_behavior_local_id_map) (id : Z) (nm : cstr) :
  NoDup (ready_id_names ids) →
  Behavior.zmk_behavior_find_behavior_name_from_local_id ids id = Some nm →
  Behavior.zmk_behavior_get_local_id ids (Some nm) = id.
Proof. apply get_local_id_of_found_name. Qed.

Lemma name_of_local_id_has_id_witness :
  Behavior.zmk_behavior_get_local_id (local_ids (board_world board_script))
    (Some (name dev_trans)) = 3.
Proof.
  refine (name_of_local_id_has_id (local_ids (board_world board_script)) 3
            (name dev_trans) _ eq_refl).
  refine (bool_decide_unpack _ _). by vm_compute.
Defined.

(** ** Local ids: the commit handler *)

Lemma unassigned_count_cons item items :
  unassigned_count (item :: items)
  = if decide (local_id item = 0) then S (unassigned_count items)
    else unassigned_count items.
Proof. unfold unassigned_count. rewrite filter_cons. by case_decide. Qed.

Lemma assigned_ids_cons item items :
  assigned_ids (item :: items)
  = if decide (local_id item = 0) then assigned_ids items
    else local_id item :: assigned_ids items.
Proof.
  unfold assigned_ids. rewrite fmap_cons, filter_cons.
  repeat case_decide; done.
Qed.

(** The shape of a commit, for a table whose ids the counter covers and a
    counter that has room for the unassigned entries. *)
Lemma commit_items_shape items : ∀ k,
  Forall (λ item, 0 <= local_id item <= k) items →
  k + Z.of_nat (unassigned_count items) <= UINT16_MAX →
  ∃ items' saved,
    Behavior.commit_items items k
    = (items', k + Z.of_nat (unassigned_count items), saved)
    ∧ length saved = unassigned_count items
    ∧ lid_device <$> items' = lid_device <$> items
    ∧ Forall2 (λ item item',
                 if decide (local_id item = 0)
                 then k < local_id item' <= k + Z.of_nat (unassigned_count items)
                 else local_id item' = local_id item) items items'
    ∧ (NoDup (assigned_ids items) → NoDup (local_id <$> items')).
Proof.
  unfold UINT16_MAX.
  induction items as [|item items IH]; intros k Hcov Hroom.
  - exists [], []. cbn. rewrite Z.add_0_r. split_and!; try done; constructor.
  - apply Forall_cons in Hcov as [Hitem Hcov].
    rewrite unassigned_count_cons in Hroom. rewrite unassigned_count_cons.
    cbn [Behavior.commit_items]. rewrite assigned_ids_cons.
    case_decide as Hz.
    + rewrite Hz. cbn [Z.eqb negb].
      assert (Hid : to_uint16 (k + 1) = k + 1) by (apply Z.mod_small; lia).
      rewrite Hid.
      destruct (IH (k + 1)) as (items' & saved & Hrun & Hsaved & Hdev & Hrel & Hnd).
      { eapply Forall_impl; [exact Hcov|]. cbn. intros; lia. }
      { lia. }
      rewrite Hrun. eexists _, _. split_and!.
      * do 2 f_equal. lia.
      * cbn. by rewrite Hsaved.
      * cbn. by rewrite Hdev.
      * constructor.
        -- cbn. rewrite decide_True by done. lia.
        -- eapply Forall2_impl; [exact Hrel|]. cbn. intros x y Hxy.
           case_decide; [lia|done].
      * intros Hold. rewrite fmap_cons. cbn [local_id]. apply NoDup_cons. split; [|auto].
        intros Hin. apply list_elem_of_fmap in Hin as (item' & Hk & Hin).
        apply list_elem_of_lookup in Hin as [i Hi].
        destruct (Forall2_lookup_r _ _ _ _ _ Hrel Hi) as (x & Hx & Hxy).
        case_decide.
        -- lia.
        -- rewrite Forall_forall in Hcov.
           assert (0 <= local_id x <= k) by (apply Hcov; by eapply list_elem_of_lookup_2).
           lia.
    + apply Z.eqb_neq in Hz as Hzb. rewrite Hzb. cbn [negb].
      destruct (IH k Hcov Hroom) as (items' & saved & Hrun & Hsaved & Hdev & Hrel & Hnd).
      rewrite Hrun. eexists _, _. split_and!.
      * done.
      * done.
      * cbn. by rewrite Hdev.
      * constructor; [by rewrite decide_False by done | done].
      * intros Hold. apply NoDup_cons in Hold as [Hfresh Hold].
        rewrite fmap_cons. apply NoDup_cons. split; [|auto].
        intros Hin. apply list_elem_of_fmap in Hin as (item' & Hk & Hin).
        apply list_elem_of_lookup in Hin as [i Hi].
        destruct (Forall2_lookup_r _ _ _ _ _ Hrel Hi) as (x & Hx & Hxy).
        case_decide as Hx0.
        -- lia.
        -- destruct Hfresh. unfold assigned_ids. apply list_elem_of_filter.
           split; [by rewrite Hk, Hxy|].
           rewrite Hk, Hxy. apply list_elem_of_fmap_2. by eapply list_elem_of_lookup_2.
Qed.

(** X12.  What a commit does to a table whose ids the counter covers, when
    the counter has room: every entry keeps its device; an assigned id is
    never changed; every unassigned entry gets an id above the old counter;
    afterwards no entry is unassigned and the counter covers the table
    again; one setting is saved per newly assigned entry; and if the ids
    assigned before were pairwise different, all ids are. *)
Theorem commit_keeps_assigned_and_numbers_the_rest (st : Behavior.local_id_state) :
  counter_covers st →
  Behavior.largest_local_id st + Z.of_nat (unassigned_count (Behavior.id_table st))
    <= UINT16_MAX →
  let st' := (Behavior.behavior_handle_commit st).2 in
  lid_device <$> Behavior.id_table st' = lid_device <$> Behavior.id_table st
  ∧ Forall2 (λ item item',
               if decide (local_id item = 0)
               then Behavior.largest_local_id st < local_id item'
               else local_id item' = local_id item)
            (Behavior.id_table st) (Behavior.id_table st')
  ∧ Forall (λ item', local_id item' ≠ 0) (Behavior.id_table st')
  ∧ counter_covers st'
  ∧ Behavior.largest_local_id st'
    = Behavior.largest_local_id st + Z.of_nat (unassigned_count (Behavior.id_table st))
  ∧ length (Behavior.saved_settings st')
    = (length (Behavior.saved_settings st)
       + unassigned_count (Behavior.id_table st))%nat
  ∧ (NoDup (assigned_ids (Behavior.id_table st)) →
     NoDup (local_id <$> Behavior.id_table st')).
Proof.
  intros Hcov Hroom. unfold Behavior.behavior_handle_commit.
  destruct (commit_items_shape _ _ Hcov Hroom)
    as (items' & saved & Hrun & Hsaved & Hdev & Hrel & Hnd).
  rewrite Hrun. cbn [snd Behavior.id_table Behavior.largest_local_id
                       Behavior.saved_settings].
  unfold counter_covers in *.
  cbn [Behavior.id_table Behavior.largest_local_id].
  assert (Hall : Forall (λ item', local_id item' ≠ 0
                                  ∧ 0 <= local_id item'
                                    <= Behavior.largest_local_id st
                                       + Z.of_nat (unassigned_count (Behavior.id_table st)))
                        items').
  { apply Forall_forall. intros item' Hin.
    apply list_elem_of_lookup in Hin as [i Hi].
    destruct (Forall2_lookup_r _ _ _ _ _ Hrel Hi) as (x & Hx & Hxy).
    rewrite Forall_forall in Hcov.
    assert (0 <= local_id x <= Behavior.largest_local_id st)
      by (apply Hcov; by eapply list_elem_of_lookup_2).
    case_decide; lia. }
  split_and!.
  - done.
  - eapply Forall2_impl; [exact Hrel|]. cbn. intros x y Hxy. case_decide; [lia|done].
  - eapply Forall_impl; [exact Hall|]. cbn. tauto.
  - eapply Forall_impl; [exact Hall|]. cbn. tauto.
  - done.
  - by rewrite length_app, Hsaved.
  - done.
Qed.

Lemma commit_keeps_assigned_and_numbers_the_rest_witness :
  let st' := (Behavior.behavior_handle_commit
                (Behavior.LocalIdState
                   [LocalIdMap dev_kp 0; LocalIdMap dev_mo 7; LocalIdMap dev_trans 0] 7 [])).2 in
  local_id <$> Behavior.id_table st' = [8; 7; 9]
  ∧ NoDup (local_id <$> Behavior.id_table st').
Proof.
  pose proof (commit_keeps_assigned_and_numbers_the_rest
                (Behavior.LocalIdState
                   [LocalIdMap dev_kp 0; LocalIdMap dev_mo 7; LocalIdMap dev_trans 0] 7 []))
    as Hcommit.
  destruct Hcommit as (_ & _ & _ & _ & _ & _ & Hnd).
  - repeat constructor; cbn; lia.
  - by apply Z.leb_le.
  - split; [reflexivity|]. apply Hnd. refine (bool_decide_unpack _ _). by vm_compute.
Defined.

Lemma commit_items_all_assigned items (k : Z) :
  Forall (λ item, local_id item ≠ 0) items →
  Behavior.commit_items items k = (items, k, []).
Proof.
  induction items as [|item items IH]; intros Hall; [done|].
  apply Forall_cons in Hall as [Hitem Hall]. cbn [Behavior.commit_items].
  apply Z.eqb_neq in Hitem. rewrite Hitem. cbn [negb]. by rewrite IH.
Qed.

Lemma commit_leaves_none_unassigned (st : Behavior.local_id_state) :
  counter_covers st →
  Behavior.largest_local_id st + Z.of_nat (unassigned_count (Behavior.id_table st))
    <= UINT16_MAX →
  Forall (λ item', local_id item' ≠ 0)
         (Behavior.id_table (Behavior.behavior_handle_commit st).2).
Proof.
  intros Hcov Hroom. unfold Behavior.behavior_handle_commit.
  destruct (commit_items_shape _ _ Hcov Hroom)
    as (items' & saved & Hrun & _ & _ & Hrel & _).
  rewrite Hrun. cbn [snd Behavior.id_table].
  apply Forall_forall. intros item' Hin.
  apply list_elem_of_lookup in Hin as [i Hi].
  destruct (Forall2_lookup_r _ _ _ _ _ Hrel Hi) as (x & Hx & Hxy).
  unfold counter_covers in Hcov. rewrite Forall_forall in Hcov.
  assert (0 <= local_id x <= Behavior.largest_local_id st)
    by (apply Hcov; by eapply list_elem_of_lookup_2).
  case_decide; lia.
Qed.

(** X13.  Committing is idempotent: after one commit (with room in the
    counter) a second commit changes neither the table nor the counter and
    saves nothing more. *)
Theorem commit_twice_is_commit_once (st : Behavior.local_id_state) :
  counter_covers st →
  Behavior.largest_local_id st + Z.of_nat (unassigned_count (Behavior.id_table st))
    <= UINT16_MAX →
  Behavior.behavior_handle_commit (Behavior.behavior_handle_commit st).2
  = (0, (Behavior.behavior_handle_commit st).2).
Proof.
  intros Hcov Hroom.
  pose proof (commit_leaves_none_unassigned st Hcov Hroom) as Hall.
  destruct (Behavior.behavior_handle_commit st).2 as [items largest saved] eqn:Hst.
  unfold Behavior.behavior_handle_commit at 1. cbn [Behavior.id_table
    Behavior.largest_local_id Behavior.saved_settings] in *.
  rewrite commit_items_all_assigned by done. by rewrite app_nil_r.
Qed.

Lemma commit_twice_is_commit_once_witness :
  let st := Behavior.LocalIdState
              [LocalIdMap dev_kp 0; LocalIdMap dev_mo 7; LocalIdMap dev_trans 0] 7 [] in
  Behavior.behavior_handle_commit (Behavior.behavior_handle_commit st).2
  = (0, (Behavior.behavior_handle_commit st).2).
Proof.
  refine (commit_twice_is_commit_once
            (Behavior.LocalIdState
               [LocalIdMap dev_kp 0; LocalIdMap dev_mo 7; LocalIdMap dev_trans 0] 7 []) _ _).
  - repeat constructor; cbn; lia.
  - by apply Z.leb_le.
Defined.

(** ** Local ids: replaying stored settings *)

Section Replay.
Context `{!SettingsLib}.

Lemma assign_local_id_first (nm : string) (id : Z) items (i : nat) item :
  items !! i = Some item →
  c_chars (name (lid_device item)) = nm →
  (∀ j item', (j < i)%nat → items !! j = Some item' →
              c_chars (name (lid_device item')) ≠ nm) →
  Behavior.assign_local_id nm id items
  = Some (<[i := LocalIdMap (lid_device item) id]> items).
Proof.
  revert i. induction items as [|x items IH]; intros i Hi Hname Hbefore; [done|].
  cbn [Behavior.assign_local_id]. destruct i as [|i].
  - cbn in Hi. injection Hi as ->. by rewrite bool_decide_eq_true_2.
  - rewrite bool_decide_eq_false_2.
    + rewrite (IH i); [done | done | done |].
      intros j item' Hj Hj'. apply (Hbefore (S j)); [lia | done].
    + intros Heq. by apply (Hbefore 0%nat x); [lia | |].
Qed.

Lemma assign_local_id_None (nm : string) (id : Z) items :
  Behavior.assign_local_id nm id items = None
  ↔ ∀ item, item ∈ items → c_chars (name (lid_device item)) ≠ nm.
Proof.
  induction items as [|x items IH]; cbn [Behavior.assign_local_id].
  - split; [|done]. intros _ item Hin. by apply elem_of_nil in Hin.
  - case_bool_decide as Hx.
    + split; [done|]. intros Hall. destruct (Hall x); [left | done].
    + destruct (Behavior.assign_local_id nm id items) as [items'|].
      * split; [done|]. intros Hall.
        assert (Hnone : Some items' = None); [|done].
        apply IH. intros item Hin. apply Hall. by right.
      * split; [|done]. intros _ item Hin.
        apply elem_of_cons in Hin as [->|Hin]; [congruence|].
        by apply (proj1 IH).
Qed.

Lemma assign_local_id_Forall2 (nm : string) (id : Z) items items' :
  Behavior.assign_local_id nm id items = Some items' →
  Forall2 (λ item item', lid_device item' = lid_device item
                         ∧ (local_id item' = local_id item ∨ local_id item' = id))
          items items'.
Proof.
  revert items'. induction items as [|x items IH]; intros items'; [done|].
  cbn [Behavior.assign_local_id]. case_bool_decide.
  - intros [= <-]. constructor; [cbn; auto|].
    apply Forall2_same_length_lookup. split; [done|]. intros i a b Ha Hb.
    rewrite Ha in Hb. injection Hb as ->. auto.
  - destruct (Behavior.assign_local_id nm id items) as [rest|]; [|done].
    intros [= <-]. constructor; [auto | by apply IH].
Qed.

(** X14.  A call of [behavior_handle_set] that does not return 0 leaves the
    table, the counter and the saved settings as they were.  So does a call
    for a value of 64 bytes or more (when the name is [local_id/...]), and
    so does a call for a setting that is not [local_id/...], which
    returns 0. *)
Theorem handle_set_failure_changes_nothing
    (key : string) (len : Z) (read_cb : Z → Z * string) (st : Behavior.local_id_state) :
  let out := Behavior.behavior_handle_set key len read_cb st in
  (out.1 ≠ 0 → out.2 = st)
  ∧ (64 <= len → out.2 = st)
  ∧ ((settings_name_steq key "local_id").1 = 0
     ∨ (settings_name_steq key "local_id").2 = None → out = (0, st)).
Proof.
  cbn zeta. unfold Behavior.behavior_handle_set.
  destruct (settings_name_steq key "local_id") as [matched next]. cbn [fst snd].
  destruct (Z.eqb_spec matched 0) as [Hm|Hm].
  { split_and!; done. }
  destruct next as [next|]; [|split_and!; done].
  destruct (strtoul next 10) as [parsed endptr].
  destruct (negb _).
  { split_and!; [done | done | intros [?|?]; done]. }
  destruct (Z.leb_spec 64 len).
  { split_and!; [done | done | intros [?|?]; done]. }
  destruct (read_cb len) as [err buf].
  destruct (err <=? 0).
  { split_and!; [done | done | intros [?|?]; done]. }
  destruct (Behavior.assign_local_id _ _ _).
  - split_and!; [done | intros; lia | intros [?|?]; done].
  - split_and!; [done | done | intros [?|?]; done].
Qed.

Lemma handle_set_assigns
    (key next : string) (matched parsed len err : Z) (buf : string)
    (read_cb : Z → Z * string) (st : Behavior.local_id_state)
    (i : nat) (item : zmk_behavior_local_id_map) :
  settings_name_steq key "local_id" = (matched, Some next) → matched ≠ 0 →
  strtoul next 10 = (parsed, "") →
  len < 64 → read_cb len = (err, buf) → 0 < err →
  Behavior.id_table st !! i = Some item →
  c_chars (name (lid_device item)) = buf →
  (∀ j item', (j < i)%nat → Behavior.id_table st !! j = Some item' →
              c_chars (name (lid_device item')) ≠ buf) →
  Behavior.behavior_handle_set key len read_cb st
  = (0, Behavior.LocalIdState
          (<[i := LocalIdMap (lid_device item) (parsed mod 256)]> (Behavior.id_table st))
          (Z.max (Behavior.largest_local_id st) (parsed mod 256))
          (Behavior.saved_settings st)).
Proof.
  intros Hkey Hm Hnum Hlen Hread Herr Hi Hname Hbefore.
  unfold Behavior.behavior_handle_set. rewrite Hkey.
  apply Z.eqb_neq in Hm. rewrite Hm, Hnum. cbn.
  destruct (Z.leb_spec 64 len); [lia|]. rewrite Hread.
  destruct (Z.leb_spec err 0); [lia|].
  by rewrite (assign_local_id_first _ _ _ i item).
Qed.

(** X15.  A successful replay of one setting.  For a setting
    [local_id/<digits>] whose value, shorter than 64 bytes, is the name of
    a table entry, the first entry of that name, ready or not, gets the
    number read, reduced modulo 256; the counter becomes the larger of its
    old value and that id; nothing else changes. *)
Theorem handle_set_assigns_first_entry_of_name
    (key next : string) (matched parsed len err : Z) (buf : string)
    (read_cb : Z → Z * string) (st : Behavior.local_id_state)
    (i : nat) (item : zmk_behavior_local_id_map) :
  settings_name_steq key "local_id" = (matched, Some next) → matched ≠ 0 →
  strtoul next 10 = (parsed, "") →
  len < 64 → read_cb len = (err, buf) → 0 < err →
  Behavior.id_table st !! i = Some item →
  c_chars (name (lid_device item)) = buf →
  (∀ j item', (j < i)%nat → Behavior.id_table st !! j = Some item' →
              c_chars (name (lid_device item')) ≠ buf) →
  Behavior.behavior_handle_set key len read_cb st
  = (0, Behavior.LocalIdState
          (<[i := LocalIdMap (lid_device item) (parsed mod 256)]> (Behavior.id_table st))
          (Z.max (Behavior.largest_local_id st) (parsed mod 256))
          (Behavior.saved_settings st)).
Proof. apply handle_set_assigns. Qed.

(** The invariant of a replay: the devices stay, the counter covers the
    table, and the counter stays within a [uint8_t]. *)
Lemma handle_set_invariant
    (key : string) (len : Z) (read_cb : Z → Z * string) (st : Behavior.local_id_state) :
  counter_covers st → Behavior.largest_local_id st <= 255 →
  let st' := (Behavior.behavior_handle_set key len read_cb st).2 in
  counter_covers st' ∧ Behavior.largest_local_id st' <= 255
  ∧ lid_device <$> Behavior.id_table st' = lid_device <$> Behavior.id_table st.
Proof.
  intros Hcov Hsmall. cbn zeta. unfold Behavior.behavior_handle_set.
  destruct (settings_name_steq key "local_id") as [matched next].
  destruct (if matched =? 0 then None else next) as [nx|]; [|done].
  destruct (strtoul nx 10) as [parsed endptr].
  destruct (negb _); [done|]. destruct (64 <=? len); [done|].
  destruct (read_cb len) as [err buf]. destruct (err <=? 0); [done|].
  destruct (Behavior.assign_local_id buf (to_uint8 parsed) (Behavior.id_table st))
    as [items'|] eqn:Hassign; [|done].
  cbn [snd Behavior.id_table Behavior.largest_local_id].
  assert (Hid : 0 <= to_uint8 parsed < 256) by (apply Z.mod_pos_bound; lia).
  apply assign_local_id_Forall2 in Hassign.
  unfold counter_covers in *. cbn [Behavior.id_table Behavior.largest_local_id].
  split_and!.
  - apply Forall_forall. intros item' Hin.
    apply list_elem_of_lookup in Hin as [j Hj].
    destruct (Forall2_lookup_r _ _ _ _ _ Hassign Hj) as (x & Hx & _ & Hxy).
    rewrite Forall_forall in Hcov.
    assert (0 <= local_id x <= Behavior.largest_local_id st)
      by (apply Hcov; by eapply list_elem_of_lookup_2).
    lia.
  - lia.
  - clear -Hassign. induction Hassign as [|x y l l' [Hd _] _ IH]; [done|].
    rewrite !fmap_cons. by rewrite Hd, IH.
Qed.

Lemma replay_invariant (settings : list stored_setting) (st : Behavior.local_id_state) :
  counter_covers st → Behavior.largest_local_id st <= 255 →
  counter_covers (replay settings st)
  ∧ Behavior.largest_local_id (replay settings st) <= 255
  ∧ lid_device <$> Behavior.id_table (replay settings st)
    = lid_device <$> Behavior.id_table st.
Proof.
  revert st. induction settings as [|s settings IH]; intros st Hcov Hsmall; [done|].
  unfold replay in *. cbn [foldl].
  destruct (handle_set_invariant (ss_key s) (ss_len s) (ss_read_cb s) st Hcov Hsmall)
    as (Hcov' & Hsmall' & Hdev').
  destruct (IH _ Hcov' Hsmall') as (? & ? & Hdev). rewrite Hdev. done.
Qed.

(** X16.  Boot under the persistent counter.  Starting from a table with
    nothing assigned and the counter at 0, replaying any stored settings
    and then committing leaves every behaviour (at most 65280 of them) with
    an id other than 0 and with its device; the replay never raises the
    counter above 255; ids the replay assigned survive the commit; and if
    the replay assigned pairwise different ids, all ids are pairwise
    different after the commit. *)
Theorem replay_then_commit_assigns_every_behavior
    (settings : list stored_setting) (items : list zmk_behavior_local_id_map) :
  Forall unassigned items →
  Z.of_nat (length items) <= 65280 →
  let replayed := replay settings (Behavior.LocalIdState items 0 []) in
  let st := (Behavior.behavior_handle_commit replayed).2 in
  lid_device <$> Behavior.id_table st = lid_device <$> items
  ∧ Forall (λ item, local_id item ≠ 0) (Behavior.id_table st)
  ∧ Behavior.largest_local_id replayed <= 255
  ∧ Forall2 (λ before after, local_id before ≠ 0 → local_id after = local_id before)
            (Behavior.id_table replayed) (Behavior.id_table st)
  ∧ (NoDup (assigned_ids (Behavior.id_table replayed)) →
     NoDup (local_id <$> Behavior.id_table st)).
Proof.
  intros Hun Hlen. cbn zeta.
  assert (Hcov0 : counter_covers (Behavior.LocalIdState items 0 [])).
  { unfold counter_covers. cbn. eapply Forall_impl; [exact Hun|].
    unfold unassigned. cbn. intros; lia. }
  destruct (replay_invariant settings _ Hcov0 ltac:(cbn; lia)) as (Hcov & Hsmall & Hdev).
  cbn [Behavior.id_table] in Hdev.
  set (replayed := replay settings (Behavior.LocalIdState items 0 [])) in *.
  assert (Hroom : Behavior.largest_local_id replayed
                  + Z.of_nat (unassigned_count (Behavior.id_table replayed)) <= UINT16_MAX).
  { unfold UINT16_MAX, unassigned_count.
    pose proof (length_filter (λ item, local_id item = 0) (Behavior.id_table replayed)).
    assert (length (Behavior.id_table replayed) = length items).
    { by rewrite <- (length_fmap lid_device), Hdev, length_fmap. }
    lia. }
  pose proof (commit_leaves_none_unassigned replayed Hcov Hroom) as Hall.
  unfold Behavior.behavior_handle_commit in *.
  destruct (commit_items_shape _ _ Hcov Hroom)
    as (items' & saved & Hrun & _ & Hdev' & Hrel & Hnd).
  rewrite Hrun in *. cbn [snd Behavior.id_table] in *.
  split_and!; [by rewrite Hdev' | done | done | | done].
  eapply Forall2_impl; [exact Hrel|]. cbn. intros x y Hxy Hx.
  by rewrite decide_False in Hxy.
Qed.

End Replay.

Lemma handle_set_assigns_first_entry_of_name_witness :
  Behavior.behavior_handle_set "local_id/263" 15 (λ _, (15, "momentary_layer"))
    (Behavior.LocalIdState
       [LocalIdMap dev_kp 0; LocalIdMap dev_mo 0; LocalIdMap dev_trans 0] 0 [])
  = (0, Behavior.LocalIdState
          [LocalIdMap dev_kp 0; LocalIdMap dev_mo 7; LocalIdMap dev_trans 0] 7 []).
Proof.
  refine (handle_set_assigns_first_entry_of_name
            "local_id/263" "263" 1 263 15 15 "momentary_layer" (λ _, (15, "momentary_layer"))
            (Behavior.LocalIdState
               [LocalIdMap dev_kp 0; LocalIdMap dev_mo 0; LocalIdMap dev_trans 0] 0 [])
            1%nat (LocalIdMap dev_mo 0)
            eq_refl _ eq_refl _ eq_refl _ eq_refl eq_refl _).
  - discriminate.
  - by apply Z.ltb_lt.
  - by apply Z.ltb_lt.
  - intros j item' Hj Hitem. destruct j as [|j]; [|lia].
    injection Hitem as <-. discriminate.
Defined.

Lemma replay_then_commit_assigns_every_behavior_witness :
  let replayed :=
    replay [StoredSetting "local_id/7" 15 (λ _, (15, "momentary_layer"))]
           (Behavior.LocalIdState
              [LocalIdMap dev_kp 0; LocalIdMap dev_mo 0; LocalIdMap dev_trans 0] 0 []) in
  local_id <$> Behavior.id_table (Behavior.behavior_handle_commit replayed).2 = [8; 7; 9]
  ∧ NoDup (local_id <$> Behavior.id_table (Behavior.behavior_handle_commit replayed).2).
Proof.
  pose proof (replay_then_commit_assigns_every_behavior
                [StoredSetting "local_id/7" 15 (λ _, (15, "momentary_layer"))]
                [LocalIdMap dev_kp 0; LocalIdMap dev_mo 0; LocalIdMap dev_trans 0])
    as Hboot.
  destruct Hboot as (_ & _ & _ & _ & Hnd).
  - repeat constructor.
  - by apply Z.leb_le.
  - split; [reflexivity|]. apply Hnd. refine (bool_decide_unpack _ _). by vm_compute.
Defined.

(** * Further properties of [keymap_subsystem.c] *)

Section RpcMore.
Context {E : Type} `{!Collaborators E}.
Variable cfg : config.


(** X18.  A request for a cell the keymap does not have (a layer or a key
    position out of range) is answered INVALID_LOCATION and changes
    nothing, even though the behaviour and its parameters were accepted. *)
Theorem set_layer_binding_invalid_location
    (set_req : zmk_keymap_SetLayerBindingRequest) (w : world E) (behavior_name : cstr) :
  Behavior.zmk_behavior_find_behavior_name_from_local_id
    (local_ids w) (to_uint16 (behavior_id (req_binding set_req)))
  = Some behavior_name →
  0 <= Behavior.zmk_behavior_validate_binding cfg (behavior_refs w)
         (Binding (Some behavior_name)
                  (bb_param1 (req_binding set_req)) (bb_param2 (req_binding set_req))) →
  zmk_keymap_get_layer_binding_at_idx (zmk_keymap w)
    (req_layer set_req) (req_key_position set_req) = None →
  Studio.set_layer_binding cfg set_req w
  = (Response_set_layer_binding SetLayerBinding_INVALID_LOCATION, w).
Proof.
  intros Hname Hvalid Hcell.
  unfold Studio.set_layer_binding, bind, gets, ret, Studio.keymap_set. cbn.
  rewrite Hname.
  destruct (Z.ltb_spec (Behavior.zmk_behavior_validate_binding cfg (behavior_refs w)
              (Binding (Some behavior_name) (bb_param1 (req_binding set_req))
                       (bb_param2 (req_binding set_req)))) 0); [lia|].
  unfold zmk_keymap_set_layer_binding_at_idx. rewrite Hcell. cbn.
  by destruct w.
Qed.

(** X19.  Reading back what was written.  After a successful
    [set_layer_binding], when the ready entries of the identity table have
    pairwise different names, the message [encode_layer_bindings] builds
    for the cell carries the local id of the request (as narrowed to 16
    bits) and its two parameters. *)
Theorem set_layer_binding_then_encode
    (set_req : zmk_keymap_SetLayerBindingRequest) (w : world E) (behavior_name : cstr)
    (written : zmk_behavior_binding) :
  NoDup (ready_id_names (local_ids w)) →
  Behavior.zmk_behavior_find_behavior_name_from_local_id
    (local_ids w) (to_uint16 (behavior_id (req_binding set_req)))
  = Some behavior_name →
  (Studio.set_layer_binding cfg set_req w).1
  = Response_set_layer_binding SetLayerBinding_SUCCESS →
  zmk_keymap_get_layer_binding_at_idx
    (zmk_keymap (Studio.set_layer_binding cfg set_req w).2)
    (req_layer set_req) (req_key_position set_req) = Some written →
  Studio.binding_message (local_ids (Studio.set_layer_binding cfg set_req w).2) written
  = BehaviorBinding (to_uint16 (behavior_id (req_binding set_req)))
                    (bb_param1 (req_binding set_req))
                    (bb_param2 (req_binding set_req)).
Proof.
  intros Hnd Hname. 
  unfold Studio.set_layer_binding, bind, gets, ret, Studio.keymap_set,
    raise_zmk_studio_rpc_notification. cbn. rewrite Hname.
  set (binding := Binding (Some behavior_name) _ _).
  destruct (_ <? 0); [done|].
  destruct (zmk_keymap_get_layer_binding_at_idx (zmk_keymap w) (req_layer set_req)
              (req_key_position set_req)) as [old|] eqn:Hold.
  - pose proof (keymap_set_hit (zmk_keymap w) (req_layer set_req)
                  (req_key_position set_req) binding ltac:(by rewrite Hold)) as Hhit.
    unfold zmk_keymap_set_layer_binding_at_idx in *. rewrite Hold in *. cbn in *.
    intros _ Hw. rewrite Hhit in Hw. injection Hw as <-.
    unfold Studio.binding_message, binding.
    cbn [behavior_dev param1 param2 local_ids].
    by rewrite (get_local_id_of_found_name _ _ _ Hnd Hname).
  - unfold zmk_keymap_set_layer_binding_at_idx. rewrite Hold. cbn. done.
Qed.

(** X20.  [discard_changes] reverts the layout selection first and the
    keymap second, the keymap only if the first call succeeded.  If either
    call fails the answer is the generic error and no notification is
    raised; when both succeed, "unsaved changes: false" is notified and the
    keymap is the one the keymap store reverted to. *)
Theorem discard_changes_outcomes (w : world E) :
  let layout := zmk_physical_layouts_revert_selected (ext w) in
  let reverted := zmk_keymap_discard_changes (zmk_keymap w) layout.2 in
  let out := Studio.discard_changes w in
  (layout.1 < 0 →
     out = (ZMK_RPC_SIMPLE_ERR GENERIC, with_ext w layout.2))
  ∧ (layout.1 < 0 ∨ reverted.1.1 < 0 →
       out.1 = ZMK_RPC_SIMPLE_ERR GENERIC ∧ notifications out.2 = notifications w)
  ∧ (0 <= layout.1 → 0 <= reverted.1.1 →
       out.1 = Response_discard_changes true
       ∧ zmk_keymap out.2 = reverted.1.2
       ∧ ext out.2 = reverted.2
       ∧ notifications out.2 = notifications w ++ [unsaved_changes_status_changed false]).
Proof.
  cbn zeta. unfold Studio.discard_changes, Studio.keymap_discard, bind, gets, call_ext,
    ret, raise_zmk_studio_rpc_notification, with_ext.
  destruct (zmk_physical_layouts_revert_selected (ext w)) as [r1 e1]. cbn.
  destruct (Z.ltb_spec r1 0) as [H1|H1]; cbn.
  - split_and!; try done; intros; lia.
  - destruct (zmk_keymap_discard_changes (zmk_keymap w) e1) as [[r2 km2] e2]. cbn.
    destruct (Z.ltb_spec r2 0) as [H2|H2]; cbn;
      split_and!; try done; try (intros; lia); try (intros [?|?]; lia).
Qed.

(** X21.  A successful layout change.  When another layout is requested and
    the selection succeeds, the answer is [ok], the layout store is in the
    state the selection left, the keymap is the one [migrate_keymap]
    produces from the previously selected layout (asked for its position
    map after the selection), and "unsaved changes: true" is notified
    once. *)
Theorem set_active_physical_layout_success (req : Z) (w : world E) :
  let old := zmk_physical_layouts_get_selected (ext w) in
  let selected := zmk_physical_layouts_select (to_uint8 req) (ext w) in
  old ≠ to_uint8 req → 0 <= selected.1 →
  let out := Studio.set_active_physical_layout cfg req w in
  out.1 = Response_set_active_physical_layout SetActivePhysicalLayout_ok
  ∧ ext out.2 = selected.2
  ∧ zmk_keymap out.2
    = zmk_keymap (Studio.migrate_keymap cfg old (with_ext w selected.2)).2
  ∧ notifications out.2 = notifications w ++ [unsaved_changes_status_changed true]
  ∧ behavior_refs out.2 = behavior_refs w
  ∧ local_ids out.2 = local_ids w.
Proof.
  cbn zeta. intros Hne Hok.
  unfold Studio.set_active_physical_layout, bind, gets, call_ext, ret,
    raise_zmk_studio_rpc_notification, with_ext. cbn -[Studio.migrate_keymap].
  apply Z.eqb_neq in Hne. rewrite Hne.
  destruct (zmk_physical_layouts_select (to_uint8 req) (ext w)) as [r e].
  cbn -[Studio.migrate_keymap] in *.
  destruct (Z.leb_spec 0 r); [|lia].
  rewrite !migrate_keymap_world. cbn.
  destruct (_ <? 0); cbn; split_and!; done.
Qed.

(** X22.  The requested layout index is narrowed to 8 bits: a request for
    index [req + 256] is handled exactly like a request for [req]. *)
Theorem set_active_physical_layout_index_wraps (req : Z) (w : world E) :
  Studio.set_active_physical_layout cfg (req + 256) w
  = Studio.set_active_physical_layout cfg req w.
Proof.
  unfold Studio.set_active_physical_layout.
  replace (to_uint8 (req + 256)) with (to_uint8 req); [done|].
  unfold to_uint8. symmetry. exact (Z.mod_add req 1 256 ltac:(lia)).
Qed.

End RpcMore.


Lemma set_layer_binding_invalid_location_witness :
  Studio.set_layer_binding board
    (SetLayerBindingRequest 5 2 (BehaviorBinding 2 1 0)) (board_world board_script)
  = (Response_set_layer_binding SetLayerBinding_INVALID_LOCATION, board_world board_script).
Proof.
  refine (set_layer_binding_invalid_location board
            (SetLayerBindingRequest 5 2 (BehaviorBinding 2 1 0))
            (board_world board_script) (name dev_mo) eq_refl _ eq_refl).
  by apply Z.leb_le.
Defined.

Lemma set_layer_binding_then_encode_witness :
  let req := SetLayerBindingRequest 1 2 (BehaviorBinding 2 1 0) in
  let out := Studio.set_layer_binding board req (board_world board_script) in
  Studio.binding_message (local_ids out.2) (Binding (Some (name dev_mo)) 1 0)
  = BehaviorBinding 2 1 0.
Proof.
  refine (set_layer_binding_then_encode board
            (SetLayerBindingRequest 1 2 (BehaviorBinding 2 1 0))
            (board_world board_script) (name dev_mo) (Binding (Some (name dev_mo)) 1 0)
            _ eq_refl eq_refl eq_refl).
  refine (bool_decide_unpack _ _). by vm_compute.
Defined.

Lemma set_active_physical_layout_success_witness :
  let out := Studio.set_active_physical_layout board 1 (board_world board_script) in
  out.1 = Response_set_active_physical_layout SetActivePhysicalLayout_ok
  ∧ selected (ext out.2) = 1
  ∧ zmk_keymap out.2
    = [[bC; bD; Studio.zero_binding; Studio.zero_binding; bA; bB];
       [bF; bF; Studio.zero_binding; Studio.zero_binding; bF; bF]]
  ∧ notifications out.2 = [unsaved_changes_status_changed true].
Proof.
  destruct (set_active_physical_layout_success board 1 (board_world board_script))
    as (Hresp & Hext & Hkm & Hnotes & _).
  - discriminate.
  - by apply Z.leb_le.
  - cbn zeta. split_and!; [exact Hresp | by rewrite Hext | by rewrite Hkm | exact Hnotes].
Defined.

(** ** More on the migration *)

Lemma keymap_set_shape (km : keymap) (l b : Z) x :
  length <$> (zmk_keymap_set_layer_binding_at_idx km l b x).2 = length <$> km.
Proof.
  unfold zmk_keymap_set_layer_binding_at_idx.
  destruct (zmk_keymap_get_layer_binding_at_idx km l b); [|done]. cbn [snd].
  apply list_eq. intros j. rewrite !list_lookup_fmap.
  destruct (decide (Z.to_nat l = j)) as [<-|Hne].
  - rewrite list_lookup_alter_eq. destruct (km !! Z.to_nat l); [|done].
    cbn. by rewrite length_insert.
  - by rewrite list_lookup_alter_ne.
Qed.

Lemma write_new_layer_shape new_layer (km : keymap) (l b0 : Z) :
  length <$> Studio.write_new_layer km l b0 new_layer = length <$> km.
Proof.
  revert km b0. induction new_layer as [|x rest IH]; intros km b0; [done|].
  cbn [Studio.write_new_layer]. by rewrite IH, keymap_set_shape.
Qed.

Lemma migrate_layers_shape (cfg : config) entries (km : keymap) :
  length <$> Studio.migrate_layers cfg entries km = length <$> km.
Proof.
  unfold Studio.migrate_layers.
  generalize (Z.of_nat <$> seq 0 (Z.to_nat (ZMK_KEYMAP_LAYERS_LEN cfg))). intros ls.
  revert km. induction ls as [|l ls IH]; intros km; [done|].
  cbn [foldl]. rewrite IH. apply write_new_layer_shape.
Qed.

Lemma keymap_dims_shape (cfg : config) (km km' : keymap) :
  length <$> km' = length <$> km → keymap_dims cfg km → keymap_dims cfg km'.
Proof.
  intros Hshape [Hlayers Hrows]. split.
  - by rewrite <- (length_fmap length km'), Hshape, length_fmap.
  - apply Forall_forall. intros row Hin.
    apply list_elem_of_lookup in Hin as [i Hi].
    assert (Hlen : (length <$> km') !! i = Some (length row))
      by by rewrite list_lookup_fmap, Hi.
    rewrite Hshape, list_lookup_fmap in Hlen.
    destruct (km !! i) as [row0|] eqn:Hrow0; [|done]. injection Hlen as Hlen.
    rewrite Forall_forall in Hrows. rewrite <- Hlen. apply Hrows.
    by eapply list_elem_of_lookup_2.
Qed.

Lemma keymap_dims_cell (cfg : config) (km : keymap) (l b : Z) :
  keymap_dims cfg km →
  0 <= l < ZMK_KEYMAP_LAYERS_LEN cfg → 0 <= b < ZMK_KEYMAP_LEN cfg →
  is_Some (zmk_keymap_get_layer_binding_at_idx km l b).
Proof.
  intros [Hlayers Hrows] Hl Hb.
  destruct (lookup_lt_is_Some_2 km (Z.to_nat l)) as [row Hrow]; [lia|].
  assert (Hlen : Z.of_nat (length row) = ZMK_KEYMAP_LEN cfg).
  { rewrite Forall_forall in Hrows. apply Hrows. by eapply list_elem_of_lookup_2. }
  destruct (lookup_lt_is_Some_2 row (Z.to_nat b)) as [y Hy]; [lia|].
  exists y. apply keymap_get_Some. split_and!; [lia..|]. eauto.
Qed.

Lemma migrate_fold_is_Some entries (ls : list Z) (km : keymap) (l b : Z) :
  is_Some (zmk_keymap_get_layer_binding_at_idx
             (foldl (Studio.migrate_layer entries) km ls) l b)
  ↔ is_Some (zmk_keymap_get_layer_binding_at_idx km l b).
Proof.
  revert km. induction ls as [|l0 ls IH]; intros km; [done|].
  cbn [foldl]. rewrite IH. apply migrate_layer_is_Some.
Qed.

(** What the loops of [migrate_keymap] leave in a cell they rewrite. *)
Lemma migrate_layers_hit (cfg : config) entries (km : keymap) (l b old_b : Z) :
  0 <= l < ZMK_KEYMAP_LAYERS_LEN cfg →
  0 <= b → entries !! Z.to_nat b = Some old_b →
  is_Some (zmk_keymap_get_layer_binding_at_idx km l b) →
  zmk_keymap_get_layer_binding_at_idx (Studio.migrate_layers cfg entries km) l b
  = Some (Studio.new_layer_cell km l old_b).
Proof.
  intros Hl Hb Hentry Hcell. unfold Studio.migrate_layers.
  apply migrate_fold_hit; [apply layer_indices_NoDup | | done..].
  apply layer_indices_elem. lia.
Qed.

Lemma migrate_layers_frame (cfg : config) entries (km : keymap) (l b : Z) :
  ¬ (0 <= l < ZMK_KEYMAP_LAYERS_LEN cfg) ∨ b < 0 ∨ Z.of_nat (length entries) <= b →
  zmk_keymap_get_layer_binding_at_idx (Studio.migrate_layers cfg entries km) l b
  = zmk_keymap_get_layer_binding_at_idx km l b.
Proof.
  intros Hout. unfold Studio.migrate_layers. apply migrate_fold_frame.
  destruct Hout as [Hl|Hb]; [left | by right].
  rewrite layer_indices_elem. lia.
Qed.

Section MigrationMore.
Context {E : Type} `{!Collaborators E}.
Variable cfg : config.

(** X23.  [migrate_keymap] changes nothing but the keymap, keeps the number
    of layers and the length of every layer, and leaves the whole world as
    it was when the layout store cannot give a position map. *)
Theorem migrate_keymap_keeps_shape (old : Z) (w : world E) :
  let out := Studio.migrate_keymap cfg old w in
  behavior_refs out.2 = behavior_refs w
  ∧ local_ids out.2 = local_ids w
  ∧ ext out.2 = ext w
  ∧ notifications out.2 = notifications w
  ∧ length <$> zmk_keymap out.2 = length <$> zmk_keymap w
  ∧ (keymap_dims cfg (zmk_keymap w) → keymap_dims cfg (zmk_keymap out.2))
  ∧ ((zmk_physical_layouts_get_position_map
        (to_uint8 old) (zmk_physical_layouts_get_selected (ext w)) (ext w)).1 < 0 →
     out.2 = w).
Proof.
  cbn zeta. rewrite migrate_keymap_world. cbn zeta.
  destruct (zmk_physical_layouts_get_position_map _ _ _) as [layout_size map].
  cbn [fst snd].
  destruct (Z.ltb_spec layout_size 0).
  - split_and!; done.
  - cbn. split_and!; try done.
    + apply migrate_layers_shape.
    + apply keymap_dims_shape, migrate_layers_shape.
    + intros; lia.
Qed.

(** X24.  A position map that sends every position to itself leaves every
    cell of the keymap as it was. *)
Theorem migrate_keymap_identity_map
    (old : Z) (w : world E) (layout_size : Z) (new_to_old_map : list Z) (l b : Z) :
  zmk_physical_layouts_get_position_map
    (to_uint8 old) (zmk_physical_layouts_get_selected (ext w)) (ext w)
  = (layout_size, new_to_old_map) →
  layout_size <= UINT32_MAX →
  (∀ p, 0 <= p < layout_size → new_to_old_map !! Z.to_nat p = Some p) →
  zmk_keymap_get_layer_binding_at_idx (zmk_keymap (Studio.migrate_keymap cfg old w).2) l b
  = zmk_keymap_get_layer_binding_at_idx (zmk_keymap w) l b.
Proof.
  intros Hpm Hsmall Hid. rewrite migrate_keymap_world. cbn zeta. rewrite Hpm.
  cbn [fst snd]. destruct (Z.ltb_spec layout_size 0); [done|]. cbn [zmk_keymap].
  destruct (decide (0 <= l < ZMK_KEYMAP_LAYERS_LEN cfg ∧ 0 <= b < layout_size))
    as [[Hl Hb]|Hout].
  - destruct (zmk_keymap_get_layer_binding_at_idx (zmk_keymap w) l b) as [y|] eqn:Hy.
    + rewrite (migrate_layers_hit _ _ _ _ _ b); [| done | lia | | by rewrite Hy].
      * unfold Studio.new_layer_cell. rewrite Hy.
        destruct (Z.eqb_spec b UINT32_MAX); [lia|done].
      * rewrite lookup_take_lt by lia. apply Hid. lia.
    + apply eq_None_not_Some. unfold Studio.migrate_layers.
      rewrite migrate_fold_is_Some, Hy. by intros [? ?].
  - apply migrate_layers_frame.
    destruct (decide (0 <= l < ZMK_KEYMAP_LAYERS_LEN cfg)); [|by left].
    right. destruct (decide (b < 0)); [by left|right].
    rewrite length_take. lia.
Qed.

End MigrationMore.

Lemma migrate_keymap_identity_map_witness :
  let w := board_world (Script 0 2 (4, [0; 1; 2; 3]) 0 0) in
  zmk_keymap_get_layer_binding_at_idx (zmk_keymap (Studio.migrate_keymap board 0 w).2) 0 2
  = Some bC.
Proof.
  refine (migrate_keymap_identity_map board 0
            (board_world (Script 0 2 (4, [0; 1; 2; 3]) 0 0)) 4 [0; 1; 2; 3] 0 2
            eq_refl _ _).
  - by apply Z.leb_le.
  - intros p Hp.
    assert (p = 0 ∨ p = 1 ∨ p = 2 ∨ p = 3) as [->|[->|[->| ->]]] by lia; reflexivity.
Defined.



(** ** The bindings encoder *)

Lemma layer_positions_cells (cfg : config) (km : keymap) (layer : Z) row :
  keymap_dims cfg km → 0 <= layer → km !! Z.to_nat layer = Some row →
  Forall2 (λ b binding, zmk_keymap_get_layer_binding_at_idx km layer b = Some binding)
          (Z.of_nat <$> seq 0 (Z.to_nat (ZMK_KEYMAP_LEN cfg))) row.
Proof.
  intros [_ Hrows] Hlayer Hrow.
  assert (Hlen : Z.of_nat (length row) = ZMK_KEYMAP_LEN cfg).
  { rewrite Forall_forall in Hrows. apply Hrows. by eapply list_elem_of_lookup_2. }
  apply Forall2_same_length_lookup. split.
  - rewrite length_fmap, length_seq. lia.
  - intros i b binding Hb Hbinding.
    rewrite list_lookup_fmap in Hb. apply fmap_Some in Hb as (n & Hn & ->).
    apply lookup_seq in Hn as [-> _]. cbn.
    apply keymap_get_Some. split_and!; [lia..|].
    exists row. by rewrite Nat2Z.id.
Qed.

Section Encoder.
Context {S : Type} `{!PbStream S}.

Lemma encode_bindings_loop_no_fault ids (km : keymap) (layer : Z) positions (stream : S) :
  Forall (λ b, is_Some (zmk_keymap_get_layer_binding_at_idx km layer b)) positions →
  is_Some (Studio.encode_bindings_loop ids km layer positions stream).
Proof.
  revert stream. induction positions as [|b rest IH]; intros stream Hcells; [by eexists|].
  apply Forall_cons in Hcells as [[binding Hb] Hrest].
  cbn [Studio.encode_bindings_loop]. rewrite Hb.
  destruct (pb_encode_tag_for_field stream) as [[] s1]; cbn; [|by eexists].
  destruct (pb_encode_submessage_BehaviorBinding _ s1) as [[] s2]; cbn; [|by eexists].
  by apply IH.
Qed.

(** X26.  On a keymap of the build's dimensions [encode_layer_bindings]
    never dereferences a missing binding for a layer of the keymap,
    whatever the stream does; for a layer index outside the keymap it does,
    at the first position. *)
Theorem encode_layer_bindings_fault_iff_layer_out_of_range
    (cfg : config) ids (km : keymap) (layer : Z) (stream : S) :
  keymap_dims cfg km → 0 < ZMK_KEYMAP_LEN cfg →
  (0 <= layer < ZMK_KEYMAP_LAYERS_LEN cfg
   ↔ is_Some (Studio.encode_layer_bindings cfg ids km layer stream)).
Proof.
  intros Hdims Hkeys. split.
  - intros Hlayer. apply encode_bindings_loop_no_fault.
    apply Forall_forall. intros b Hb. apply layer_indices_elem in Hb.
    apply (keymap_dims_cell cfg); [done | done | lia].
  - intros Hsome. unfold Studio.encode_layer_bindings in Hsome.
    destruct (Z.to_nat (ZMK_KEYMAP_LEN cfg)) as [|n] eqn:Hn; [lia|].
    cbn [seq fmap list_fmap Studio.encode_bindings_loop] in Hsome.
    destruct (zmk_keymap_get_layer_binding_at_idx km layer (Z.of_nat 0)) as [y|] eqn:Hy;
      [|by destruct Hsome].
    apply keymap_get_Some in Hy as (Hl & _ & row & Hrow & _).
    apply lookup_lt_Some in Hrow. destruct Hdims as [Hlayers _]. lia.
Qed.

End Encoder.

Lemma encode_layer_bindings_fault_iff_layer_out_of_range_witness :
  (0 <= 1 < ZMK_KEYMAP_LAYERS_LEN board
   ↔ is_Some (Studio.encode_layer_bindings board (local_ids (board_world board_script))
                (zmk_keymap (board_world board_script)) 1 (Recorder [] 3))).
Proof.
  refine (encode_layer_bindings_fault_iff_layer_out_of_range board _ _ 1 _ _ _).
  - split; [reflexivity | repeat constructor].
  - by apply Z.ltb_lt.
Defined.

Lemma encode_bindings_loop_records ids (km : keymap) (layer : Z) positions row :
  Forall2 (λ b binding, zmk_keymap_get_layer_binding_at_idx km layer b = Some binding)
          positions row →
  ∀ items n,
  Studio.encode_bindings_loop ids km layer positions (Recorder items n)
  = Some (bool_decide (2 * length row ≤ n)%nat,
          Recorder (items ++ take n (layer_items ids row)) (n - 2 * length row)).
Proof.
  induction 1 as [|b binding positions row Hb _ IH]; intros items n.
  - cbn. rewrite bool_decide_eq_true_2 by lia.
    by rewrite take_nil, app_nil_r, Nat.sub_0_r.
  - cbn [Studio.encode_bindings_loop]. rewrite Hb.
    unfold layer_items. rewrite bind_cons. fold (layer_items ids row).
    destruct n as [|[|n]]; cbn.
    + by rewrite app_nil_r.
    + rewrite bool_decide_eq_false_2 by lia. repeat f_equal.
    + rewrite IH. f_equal. f_equal; [apply bool_decide_ext; lia|].
      f_equal; [by rewrite <- !app_assoc | lia].
Qed.

(** X27.  Encoding a layer into a stream that records its writes and has
    room for [n] more: the stream ends up holding, after what it held, the
    first [n] of the items "tag, binding message" of the cells of the layer
    in position order, each message carrying the local id of the cell's
    behaviour and its two parameters; the callback reports success exactly
    when all items fitted. *)
Theorem encode_layer_bindings_records
    (cfg : config) ids (km : keymap) (layer : Z) row items (n : nat) :
  keymap_dims cfg km → 0 <= layer → km !! Z.to_nat layer = Some row →
  Studio.encode_layer_bindings cfg ids km layer (Recorder items n)
  = Some (bool_decide (2 * length row ≤ n)%nat,
          Recorder (items ++ take n (layer_items ids row)) (n - 2 * length row)).
Proof.
  intros Hdims Hlayer Hrow. unfold Studio.encode_layer_bindings.
  apply encode_bindings_loop_records. by apply (layer_positions_cells cfg).
Qed.

Lemma encode_layer_bindings_records_witness :
  Studio.encode_layer_bindings board (local_ids (board_world board_script))
    (zmk_keymap (board_world board_script)) 0 (Recorder [] 3)
  = Some (false,
          Recorder [Pb_tag; Pb_binding (BehaviorBinding 1 0x070004 0); Pb_tag] 0).
Proof.
  refine (encode_layer_bindings_records board (local_ids (board_world board_script))
            (zmk_keymap (board_world board_script)) 0 [bA; bB; bC; bD; bE; bF] [] 3
            _ _ eq_refl).
  - split; [reflexivity | repeat constructor].
  - lia.
Defined.

(** ** Local ids across a reboot *)

Section Reboot.
Context `{!SettingsLib}.

(** The table while the settings of a first boot are replayed: the first
    [j] entries carry their ids again, the others are still unassigned. *)
Lemma replay_prefix (devices : list device) (settings : list stored_setting) :
  Z.of_nat (length devices) <= 255 →
  NoDup ((λ d, c_chars (name d)) <$> devices) →
  Forall2 hands_back
    (Behavior.saved_settings (Behavior.behavior_handle_commit (fresh_table devices)).2)
    settings →
  (∀ id, 0 < id <= Z.of_nat (length devices) →
         settings_name_steq ("local_id/" +:+ pretty id) "local_id" = (1, Some (pretty id))
         ∧ strtoul (pretty id) 10 = (id, "")) →
  ∀ j : nat, (j ≤ length devices)%nat →
  replay (take j settings) (fresh_table devices)
  = Behavior.LocalIdState
      (imap (λ i d, LocalIdMap d (if decide (i < j)%nat then Z.of_nat i + 1 else 0)) devices)
      (Z.of_nat j) [].
Proof.
  intros Hfew Hnames Hback Hlib.
  unfold Behavior.behavior_handle_commit, fresh_table in Hback.
  cbn [Behavior.id_table Behavior.largest_local_id Behavior.saved_settings] in Hback.
  rewrite commit_items_unassigned in Hback; cycle 1.
  { apply Forall_fmap, Forall_true. done. }
  { lia. }
  { rewrite length_fmap. unfold UINT16_MAX. lia. }
  cbn [snd Behavior.saved_settings app] in Hback.
  induction j as [|j IH]; intros Hj.
  - rewrite take_0. unfold replay, fresh_table. cbn [foldl]. f_equal.
    apply list_eq. intros i. rewrite list_lookup_fmap, list_lookup_imap.
    by destruct (devices !! i).
  - destruct (lookup_lt_is_Some_2 devices j) as [d Hd]; [lia|].
    assert (Hsaved : imap (λ i item, (Behavior.setting_name (0 + 1 + Z.of_nat i),
                                      c_chars (name (lid_device item))))
                       ((λ d, LocalIdMap d 0) <$> devices) !! j
                     = Some (Behavior.setting_name (Z.of_nat j + 1), c_chars (name d))).
    { rewrite list_lookup_imap, list_lookup_fmap, Hd. cbn. do 3 f_equal. lia. }
    destruct (Forall2_lookup_l _ _ _ _ _ Hback Hsaved) as (s & Hs & Hkey & Hlen & Hsize & Hread).
    cbn [fst snd] in *.
    rewrite (take_S_r _ _ _ Hs). unfold replay in *. rewrite foldl_app. cbn [foldl].
    rewrite IH by lia.
    assert (Hkey' : ss_key s = "local_id/" +:+ pretty (Z.of_nat j + 1)).
    { unfold Behavior.setting_name in Hkey. cbn in Hkey. by simplify_eq. }
    destruct (Hlib (Z.of_nat j + 1)) as [Hsteq Hnum]; [lia|].
    rewrite (handle_set_assigns (ss_key s) (pretty (Z.of_nat j + 1)) 1
               (Z.of_nat j + 1) (ss_len s) (ss_len s) (c_chars (name d))
               (ss_read_cb s) _ j (LocalIdMap d 0)).
    + cbn [snd Behavior.id_table Behavior.largest_local_id Behavior.saved_settings
               lid_device].
      rewrite Z.mod_small by lia. f_equal; [|lia].
      apply list_eq. intros i. destruct (decide (i = j)) as [->|Hne].
      * rewrite list_lookup_insert_eq.
        -- rewrite list_lookup_imap, Hd. cbn. rewrite decide_True by lia. done.
        -- rewrite length_imap. by eapply lookup_lt_Some.
      * rewrite list_lookup_insert_ne by done. rewrite !list_lookup_imap.
        destruct (devices !! i); [|done]. cbn. do 2 f_equal.
        repeat case_decide; (done || lia).
    + by rewrite Hkey'.
    + done.
    + done.
    + lia.
    + done.
    + lia.
    + cbn [Behavior.id_table]. rewrite list_lookup_imap, Hd. cbn.
      by rewrite decide_False by lia.
    + done.
    + cbn [Behavior.id_table]. intros i item' Hi Hitem'.
      rewrite list_lookup_imap in Hitem'.
      destruct (devices !! i) as [d'|] eqn:Hd'; [|done]. cbn in Hitem'.
      injection Hitem' as <-. cbn. intros Heq.
      assert (i = j); [|lia].
      apply (NoDup_lookup _ i j (c_chars (name d)) Hnames);
        rewrite list_lookup_fmap; [rewrite Hd' | rewrite Hd]; cbn; congruence.
Qed.

(** X28.  Ids survive a reboot, for up to 255 behaviours.  Let a first
    boot with nothing stored commit its ids and save them; let the second
    boot be handed those settings back (names of 1 to 63 bytes, pairwise
    different; the library splitting [local_id/<id>] and reading the
    decimal id).  Then replay and commit of the second boot give every
    behaviour the id of the first boot, and the second commit saves
    nothing. *)
Theorem local_ids_survive_reboot
    (devices : list device) (settings : list stored_setting) :
  Z.of_nat (length devices) <= 255 →
  NoDup ((λ d, c_chars (name d)) <$> devices) →
  Forall2 hands_back
    (Behavior.saved_settings (Behavior.behavior_handle_commit (fresh_table devices)).2)
    settings →
  (∀ id, 0 < id <= Z.of_nat (length devices) →
         settings_name_steq ("local_id/" +:+ pretty id) "local_id" = (1, Some (pretty id))
         ∧ strtoul (pretty id) 10 = (id, "")) →
  let first := (Behavior.behavior_handle_commit (fresh_table devices)).2 in
  let second := (Behavior.behavior_handle_commit (replay settings (fresh_table devices))).2 in
  Behavior.id_table second = Behavior.id_table first
  ∧ Behavior.largest_local_id second = Behavior.largest_local_id first
  ∧ Behavior.saved_settings second = [].
Proof.
  intros Hfew Hnames Hback Hlib. cbn zeta.
  pose proof (replay_prefix devices settings Hfew Hnames Hback Hlib (length devices)
                ltac:(lia)) as Hreplay.
  assert (Hlen : length settings = length devices).
  { apply Forall2_length in Hback. rewrite <- Hback.
    unfold Behavior.behavior_handle_commit, fresh_table.
    cbn [Behavior.id_table Behavior.largest_local_id Behavior.saved_settings].
    rewrite commit_items_unassigned.
    - cbn. by rewrite length_imap, length_fmap.
    - apply Forall_fmap, Forall_true. done.
    - lia.
    - rewrite length_fmap. unfold UINT16_MAX. lia. }
  rewrite take_ge in Hreplay by lia. rewrite Hreplay.
  unfold Behavior.behavior_handle_commit, fresh_table.
  cbn [Behavior.id_table Behavior.largest_local_id Behavior.saved_settings].
  rewrite commit_items_all_assigned.
  - rewrite commit_items_unassigned.
    + cbn. split_and!; [|by rewrite length_fmap|done].
      apply list_eq. intros i. rewrite !list_lookup_imap, list_lookup_fmap.
      destruct (devices !! i) as [d|] eqn:Hd; [|done]. cbn.
      rewrite decide_True by (by eapply lookup_lt_Some). do 2 f_equal. lia.
    + apply Forall_fmap, Forall_true. done.
    + lia.
    + rewrite length_fmap. unfold UINT16_MAX. lia.
  - apply Forall_forall. intros item Hin.
    apply list_elem_of_lookup in Hin as [i Hi]. rewrite list_lookup_imap in Hi.
    destruct (devices !! i) as [d|] eqn:Hd; [|done]. cbn in Hi. injection Hi as <-.
    cbn. rewrite decide_True by (by eapply lookup_lt_Some). lia.
Qed.

End Reboot.

Lemma local_ids_survive_reboot_witness :
  let settings := [StoredSetting "local_id/1" 9 (λ _, (9, "key_press"));
                   StoredSetting "local_id/2" 15 (λ _, (15, "momentary_layer"))] in
  let second := (Behavior.behavior_handle_commit
                   (replay settings (fresh_table [dev_kp; dev_mo]))).2 in
  Behavior.id_table second = [LocalIdMap dev_kp 1; LocalIdMap dev_mo 2]
  ∧ Behavior.saved_settings second = [].
Proof.
  destruct (local_ids_survive_reboot [dev_kp; dev_mo]
              [StoredSetting "local_id/1" 9 (λ _, (9, "key_press"));
               StoredSetting "local_id/2" 15 (λ _, (15, "momentary_layer"))])
    as (Htable & _ & Hsaved).
  - by apply Z.leb_le.
  - refine (bool_decide_unpack _ _). by vm_compute.
  - repeat constructor.
  - intros id Hid. cbn in Hid.
    assert (id = 1 ∨ id = 2) as [->| ->] by lia; split; reflexivity.
  - cbn zeta. split; [by rewrite Htable | exact Hsaved].
Defined.
